(** * nimiq-validator-activator: the validator lifecycle controller

    A shallow embedding of [cmd/main.go] (and of the parts of the [rpc] and
    [prometheus] packages it drives) together with the properties stated for
    it.  The remote node, the key files and the metrics registry are explicit
    state; every observable effect of a procedure is appended to a trace.
    Log output is not part of the model. *)

From Stdlib Require Import ZArith QArith Qround Qpower Qabs Lia Lqa.
From Stdlib Require Import Floats.SpecFloat.
From Stdlib Require Import Ascii String.
From stdpp Require Import base option list gmap strings.

(** ** float64

    Gauges hold Go [float64] values.  A finite binary64 value is represented
    by the rational it denotes; every operation computes the exact rational
    result and rounds it to 53 significant bits, ties to even.  The exponent
    range is not bounded: all values that occur here (conversions of 64-bit
    integers, their quotient by 100000, small counters) lie well inside the
    normal range of binary64, where this coincides with IEEE 754. *)
Module Float64.

Definition float64 : Type := Q.

(** Nearest integer, ties to even. *)
Definition rne (x : Q) : Z :=
  let f := Qfloor x in
  match Qcompare (x - inject_Z f) (1 # 2) with
  | Lt => f
  | Gt => (f + 1)%Z
  | Eq => if Z.even f then f else (f + 1)%Z
  end.

(** For [0 < x], the binade of [x]: [2 ^ ilog2 x <= x < 2 ^ (ilog2 x + 1)]. *)
Definition ilog2 (x : Q) : Z :=
  let k := (Z.log2 (Qnum x) - Z.log2 (Zpos (Qden x)))%Z in
  if Qle_bool (2 ^ k) x then k else (k - 1)%Z.

(** Unit in the last place of a 53-bit significand in the binade of [x]. *)
Definition ulp (x : Q) : Q := (2 ^ (ilog2 (Qabs x) - 52))%Q.

Definition round64 (x : Q) : float64 :=
  if Qeq_bool x 0 then 0%Q
  else Qred (inject_Z (rne (x / ulp x)) * ulp x).

(** [float64(z)] for an integer [z]. *)
Definition of_Z (z : Z) : float64 := round64 (inject_Z z).

Definition div (x y : float64) : float64 := round64 (x / y).
Definition add (x y : float64) : float64 := round64 (x + y).

(** [x >= y] *)
Definition geb (x y : float64) : bool := Qle_bool y x.

(** The same operations in the Standard Library's specification of IEEE 754
    arithmetic at binary64 (precision 53, maximal exponent 1024), and the
    rational a finite value of that specification denotes; used to compare
    the two on sample inputs. *)
Definition binary64_of_Z (z : Z) : spec_float :=
  binary_normalize 53 1024 z 0 false.

Definition binary64_value (f : spec_float) : option Q :=
  match f with
  | S754_zero _ => Some 0%Q
  | S754_finite s m e =>
      Some (Qred (inject_Z (if s then Z.neg m else Z.pos m) * 2 ^ e)%Q)
  | S754_infinity _ | S754_nan => None
  end.

Definition samples : list Z :=
  [0; 1; -3; 100; 99999; 100000; 9999999999; 10000000000; 10000000001;
   2100000000000000; 9007199254740993; 9007199254740995;
   -9223372036854775808; 9223372036854775807]%Z.

End Float64.

(** ** The functions of Go's [strings] package used by the key-file readers

    A Go string is a sequence of bytes; [string] is a sequence of [ascii],
    that is, of bytes. *)
Module strings.

Fixpoint HasPrefix (s prefix : string) : bool :=
  match prefix with
  | EmptyString => true
  | String p prefix' =>
      match s with
      | EmptyString => false
      | String c s' => if Ascii.eqb c p then HasPrefix s' prefix' else false
      end
  end.

Fixpoint drop_bytes (n : nat) (s : string) : string :=
  match n with
  | O => s
  | S n' => match s with
            | EmptyString => EmptyString
            | String _ s' => drop_bytes n' s'
            end
  end.

Definition TrimPrefix (s prefix : string) : string :=
  if HasPrefix s prefix then drop_bytes (String.length prefix) s else s.

Fixpoint Contains (s substr : string) : bool :=
  HasPrefix s substr ||
  match s with
  | EmptyString => false
  | String _ s' => Contains s' substr
  end.

(** [strings.Split(s, sep)] for a separator [sep] of one byte: the pieces
    of [s] between the occurrences of [sep]; never empty. *)
Fixpoint Split (s : string) (sep : ascii) : list string :=
  match s with
  | EmptyString => [EmptyString]
  | String c s' =>
      if Ascii.eqb c sep then EmptyString :: Split s' sep
      else match Split s' sep with
           | piece :: pieces => String c piece :: pieces
           | [] => [String c EmptyString]
           end
  end.

(** '\n' *)
Definition newline : ascii := ascii_of_nat 10.

Definition bytes (l : list nat) : string :=
  string_of_list_ascii (map ascii_of_nat l).

(** '\t', '\n', '\v', '\f', '\r', ' ' *)
Definition asciiSpace (c : ascii) : bool :=
  let n := nat_of_ascii c in
  (Nat.leb 9 n && Nat.leb n 13) || Nat.eqb n 32.

(** UTF-8 encodings of the code points above U+007F for which
    [unicode.IsSpace] holds: U+0085, U+00A0, U+1680, U+2000..U+200A,
    U+2028, U+2029, U+202F, U+205F, U+3000. *)
Definition spaceRunes : list string :=
  [ bytes [194; 133]; bytes [194; 160]; bytes [225; 154; 128] ] ++
  map (fun b => bytes [226; 128; b]) (seq 128 11) ++
  [ bytes [226; 128; 168]; bytes [226; 128; 169]; bytes [226; 128; 175];
    bytes [226; 129; 159]; bytes [227; 128; 128] ].

(** The rest of [s] after one leading white-space rune, if it has one. *)
Definition dropSpace (runes : list string) (s : string) : option string :=
  match s with
  | EmptyString => None
  | String c s' =>
      if asciiSpace c then Some s'
      else match List.find (HasPrefix s) runes with
           | Some r => Some (drop_bytes (String.length r) s)
           | None => None
           end
  end.

Fixpoint trimLeft (fuel : nat) (runes : list string) (s : string) : string :=
  match fuel with
  | O => s
  | S fuel' => match dropSpace runes s with
               | Some s' => trimLeft fuel' runes s'
               | None => s
               end
  end.

Definition reverse (s : string) : string :=
  string_of_list_ascii (List.rev (list_ascii_of_string s)).

Definition TrimLeftSpace (s : string) : string :=
  trimLeft (String.length s) spaceRunes s.

(** Trailing runes are found as leading runes of the reversed bytes. *)
Definition TrimRightSpace (s : string) : string :=
  reverse (trimLeft (String.length s) (map reverse spaceRunes) (reverse s)).

(** [strings.TrimSpace]: leading, then trailing white space removed. *)
Definition TrimSpace (s : string) : string :=
  TrimRightSpace (TrimLeftSpace s).

End strings.

(** ** Data model *)

(** Go's [error] values; only their presence is ever inspected. *)
Definition error : Type := string.

(** A Go [(value, err)] pair: [err == nil] is [Ok]. *)
Inductive result (A : Type) : Type :=
| Ok (a : A)
| Err (e : error).
Arguments Ok {A} a.
Arguments Err {A} e.

Definition is_Ok {A} (r : result A) : bool :=
  match r with Ok _ => true | Err _ => false end.

(** [rpc.ValidatorDetails]; [*int] fields are options, [int] is 64 bits. *)
Record ValidatorDetails : Type := mkValidatorDetails {
  Address : string;
  Balance : Z;
  NumStakers : Z;
  InactivityFlag : option Z;
  Retired : bool;
  JailedFrom : option Z
}.

(** Two's complement wrap-around of [int64] arithmetic. *)
Definition wrap64 (z : Z) : Z := ((z + 2 ^ 63) mod 2 ^ 64 - 2 ^ 63)%Z.

(** A JSON-RPC request as [rpc.Client] sends it: method and parameters. *)
Inductive Call : Type :=
| isConsensusEstablished
| getEpochNumber
| getAddress
| getAccountByAddress (address : string)
| getValidatorByAddress (address : string)
| importRawKey (privateKey passphrase : string)
| getBlockNumber
| unlockAccount (address passphrase : string) (duration : Z)
| sendNewValidatorTransaction
    (senderAddress validatorAddress signingSecretKey votingSecretKey
       rewardAddress signalData : string)
    (feeInLuna : Z) (validityStartHeight : string)
| sendReactivateValidatorTransaction
    (senderAddress validatorAddress signingSecretKey : string)
    (feeInLuna : Z) (validityStartHeight : string)
| sendRawTransaction (rawTx : string).

(** The procedures whose invocation the properties speak about. *)
Inductive Proc : Type := Activate | Reactivate | Fund.

(** What a run leaves behind, in order. *)
Inductive Event : Type :=
| EvEnter (p : Proc)
| EvRpc (c : Call)
| EvReadFile (path : string)
| EvPostForm (url address : string)
| EvSet (gauge label : string) (v : Float64.float64)
| EvInc (gauge label : string)
| EvSleep (seconds : Z).

(** The remote side.  [N] is the state of everything outside the process;
    each answer is the decoded [data] field of the JSON-RPC response, or the
    error of [query] or of [json.Unmarshal].  [getValidatorByAddress] is
    decoded into a pointer, which is nil ([None]) when the field is null. *)
Record Client (N : Type) : Type := mkClient {
  ans_isConsensusEstablished : N -> N * result bool;
  ans_getEpochNumber : N -> N * result Z;
  ans_getAddress : N -> N * result string;
  ans_getAccountByAddress : string -> N -> N * result Z;
  ans_getValidatorByAddress : string -> N -> N * result (option ValidatorDetails);
  ans_importRawKey : string -> string -> N -> N * result string;
  ans_getBlockNumber : N -> N * result Z;
  ans_unlockAccount : string -> string -> Z -> N -> N * result bool;
  ans_sendNewValidatorTransaction :
    string -> string -> string -> string -> string -> string -> Z -> string ->
    N -> N * result string;
  ans_sendReactivateValidatorTransaction :
    string -> string -> string -> Z -> string -> N -> N * result string;
  ans_sendRawTransaction : string -> N -> N * result string;
  (** [http.PostForm(url, {address})] to the faucet: the status code. *)
  ans_postForm : string -> string -> N -> N * result Z
}.
Arguments ans_isConsensusEstablished {N}.
Arguments ans_getEpochNumber {N}.
Arguments ans_getAddress {N}.
Arguments ans_getAccountByAddress {N}.
Arguments ans_getValidatorByAddress {N}.
Arguments ans_importRawKey {N}.
Arguments ans_getBlockNumber {N}.
Arguments ans_unlockAccount {N}.
Arguments ans_sendNewValidatorTransaction {N}.
Arguments ans_sendReactivateValidatorTransaction {N}.
Arguments ans_sendRawTransaction {N}.
Arguments ans_postForm {N}.

(** The metrics registry: gauge name and [address] label to value. *)
Abbreviation Registry := (gmap (string * string) Float64.float64).

Record World (N : Type) : Type := mkWorld {
  node : N;
  files : string -> option string;
  faucetURL : string;
  network : string;
  metrics : Registry;
  trace : list Event
}.
Arguments mkWorld {N}.
Arguments node {N}.
Arguments files {N}.
Arguments faucetURL {N}.
Arguments network {N}.
Arguments metrics {N}.
Arguments trace {N}.

(** A procedure either returns, or the process panics (nil dereference). *)
Inductive Outcome (N A : Type) : Type :=
| Returned (a : A) (w : World N)
| Panicked.
Arguments Returned {N A} a w.
Arguments Panicked {N A}.

Definition M (N A : Type) : Type := World N -> Outcome N A.

#[global] Instance M_ret {N} : MRet (M N) :=
  fun A a w => Returned a w.

#[global] Instance M_bind {N} : MBind (M N) :=
  fun A B k m w =>
    match m w with
    | Returned a w' => k a w'
    | Panicked => Panicked
    end.

(** [after w n m evs]: the world [w] once the node has moved to [n], the
    registry to [m], and [evs] has happened; files and configuration stay. *)
Definition after {N} (w : World N) (n : N) (m : Registry) (evs : list Event)
  : World N :=
  mkWorld n (files w) (faucetURL w) (network w) m (trace w ++ evs).

(** ** Primitive effects *)
Section Effects.
Context {N : Type}.

Definition gets {A} (f : World N -> A) : M N A :=
  fun w => Returned (f w) w.

Definition emit (e : Event) : M N unit :=
  fun w => Returned tt
    (mkWorld (node w) (files w) (faucetURL w) (network w) (metrics w)
             (trace w ++ [e])).

Definition modify_metrics (f : Registry -> Registry) : M N unit :=
  fun w => Returned tt
    (mkWorld (node w) (files w) (faucetURL w) (network w) (f (metrics w))
             (trace w)).

(** A nil pointer dereference. *)
Definition deref {A} (p : option A) : M N A :=
  fun w => match p with Some a => Returned a w | None => Panicked end.

(** One round trip to the remote side. *)
Definition exchange {A} (ans : N -> N * result A) : M N (result A) :=
  fun w => let '(n, r) := ans (node w) in
    Returned r
      (mkWorld n (files w) (faucetURL w) (network w) (metrics w) (trace w)).

(** [(c *Client) query] followed by [json.Unmarshal] of the result. *)
Definition query {A} (c : Call) (ans : N -> N * result A) : M N (result A) :=
  emit (EvRpc c);; exchange ans.

(** [os.ReadFile] *)
Definition ReadFile (path : string) : M N (result string) :=
  emit (EvReadFile path);;
  content ← gets (fun w => files w path);
  match content with
  | Some content => mret (Ok content)
  | None => mret (Err "open: no such file or directory")
  end.

(** [http.PostForm(url, {"address": address})]: the status code. *)
Definition PostForm (client : Client N) (url address : string) : M N (result Z) :=
  emit (EvPostForm url address);; exchange (ans_postForm client url address).

Definition Sleep (seconds : Z) : M N unit := emit (EvSleep seconds).

(** [gauge.WithLabelValues(label).Set(v)] *)
Definition gauge_Set (gauge label : string) (v : Float64.float64) : M N unit :=
  emit (EvSet gauge label v);;
  modify_metrics (fun m => <[(gauge, label) := v]> m).

(** [gauge.WithLabelValues(label).Inc()]; a fresh child starts at 0. *)
Definition gauge_Inc (gauge label : string) : M N unit :=
  emit (EvInc gauge label);;
  modify_metrics (fun m =>
    <[(gauge, label) := Float64.add (default 0%Q (m !! (gauge, label))) 1%Q]> m).

End Effects.

(** ** package prometheus: the names of the gauges *)
Module prometheus.
Definition NimiqEpochNumberGauge : string := "nimiq_epoch_number".
Definition NimiqValidatorBalanceGauge : string := "nimiq_validator_balance_luna".
Definition NimiqTotalStakeGauge : string := "nimiq_validator_stake_balance_luna".
Definition ValidatorBalanceGauge : string := "nimiq_validator_balance".
Definition ValidatorNumStakersGauge : string := "nimiq_validator_num_stakers".
Definition ValidatorInactivityFlagGauge : string := "nimiq_validator_inactivity_flag".
Definition ValidatorRetiredGauge : string := "nimiq_validator_retired".
Definition ValidatorJailedGauge : string := "nimiq_validator_jailed".
Definition ValidatorJailedFromGauge : string := "nimiq_validator_jailed_from".
Definition ValidatorActivatedGauge : string := "nimiq_validator_activated".
Definition ValidatorActivatedCounterGauge : string := "nimiq_validator_activated_counter".
Definition ValidatorReActivatedCounterGauge : string := "nimiq_validator_reactivated_counter".
End prometheus.

(** ** package rpc: the methods of [Client] *)
Module rpc.
Section Methods.
Context {N : Type} (client : Client N).

Definition IsConsensusEstablished : M N (result bool) :=
  query isConsensusEstablished (ans_isConsensusEstablished client).

Definition GetEpochNumber : M N (result Z) :=
  query getEpochNumber (ans_getEpochNumber client).

Definition GetAddress : M N (result string) :=
  query getAddress (ans_getAddress client).

Definition GetAccountBalanceByAddress (address : string) : M N (result Z) :=
  query (getAccountByAddress address) (ans_getAccountByAddress client address).

Definition GetValidatorByAddress (address : string)
  : M N (result (option ValidatorDetails)) :=
  query (getValidatorByAddress address)
        (ans_getValidatorByAddress client address).

Definition ImportRawKey (privateKey passphrase : string) : M N (result string) :=
  r ← query (importRawKey privateKey passphrase)
            (ans_importRawKey client privateKey passphrase);
  match r with
  | Err e => mret (Err e)
  | Ok data =>
      if String.eqb data "" then
        mret (Err "failed to import key, no address returned")
      else mret (Ok data)
  end.

Definition GetCurrentBlockNumber : M N (result Z) :=
  query getBlockNumber (ans_getBlockNumber client).

Definition UnlockAccount (address passphrase : string) (duration : Z)
  : M N (result unit) :=
  r ← query (unlockAccount address passphrase duration)
            (ans_unlockAccount client address passphrase duration);
  match r with
  | Err e => mret (Err e)
  | Ok data =>
      if negb data then mret (Err "failed to unlock account")
      else mret (Ok tt)
  end.

Definition SendNewValidatorTransaction
    (senderAddress validatorAddress signingSecretKey votingSecretKey
       rewardAddress signalData : string)
    (feeInLuna : Z) (validityStartHeight : string) : M N (result string) :=
  query (sendNewValidatorTransaction senderAddress validatorAddress
           signingSecretKey votingSecretKey rewardAddress signalData
           feeInLuna validityStartHeight)
        (ans_sendNewValidatorTransaction client senderAddress validatorAddress
           signingSecretKey votingSecretKey rewardAddress signalData
           feeInLuna validityStartHeight).

Definition SendReactivateValidatorTransaction
    (senderAddress validatorAddress signingSecretKey : string)
    (feeInLuna : Z) (validityStartHeight : string) : M N (result string) :=
  query (sendReactivateValidatorTransaction senderAddress validatorAddress
           signingSecretKey feeInLuna validityStartHeight)
        (ans_sendReactivateValidatorTransaction client senderAddress
           validatorAddress signingSecretKey feeInLuna validityStartHeight).

Definition SendRawTransaction (rawTx : string) : M N (result string) :=
  query (sendRawTransaction rawTx) (ans_sendRawTransaction client rawTx).

End Methods.
End rpc.

(** ** package main *)
Section Main.
Context {N : Type} (client : Client N).

Import strings.



Definition maxAttempts : Z := 3.

(** The [for attempt := 1; attempt <= maxAttempts; attempt++] loop of
    [checkConsensus], over the attempts still to run.  [inl b]: the
    function returns [b] from inside the loop; [inr n]: the loop ran to its
    end with [successfulChecks = n]. *)
Fixpoint checkConsensus_loop (attempts : list Z) (successfulChecks : Z)
  : M N (bool + Z) :=
  match attempts with
  | [] => mret (inr successfulChecks)
  | attempt :: attempts' =>
      r ← rpc.IsConsensusEstablished client;
      match r with
      | Err _ => Sleep 60;; mret (inl false)
      | Ok consensus =>
          if (consensus : bool) then
            (if (attempt <? maxAttempts)%Z then Sleep 5 else mret tt);;
            checkConsensus_loop attempts' (successfulChecks + 1)%Z
          else mret (inl false)
      end
  end.

Definition checkConsensus : M N bool :=
  r ← checkConsensus_loop (seqZ 1 maxAttempts) 0%Z;
  match r with
  | inl b => mret b
  | inr successfulChecks => mret (successfulChecks =? maxAttempts)%Z
  end.

(** [NimiqEpochNumberGauge] is a gauge without labels: its label is "". *)
Definition updateEpochNumberGauge : M N unit :=
  r ← rpc.GetEpochNumber client;
  match r with
  | Err _ => mret tt
  | Ok epochNumber =>
      gauge_Set prometheus.NimiqEpochNumberGauge "" (Float64.of_Z epochNumber)
  end.

(** The [for _, line := range lines] loop of [getPrivateKey]. *)
Fixpoint getPrivateKey_loop (lines : list string) : result string :=
  match lines with
  | [] => Err "private key not found in file"
  | line :: lines' =>
      if HasPrefix line "Private Key:" then
        Ok (TrimSpace (TrimPrefix line "Private Key:"))
      else getPrivateKey_loop lines'
  end.

Definition getPrivateKey (filePath : string) : M N (result string) :=
  r ← ReadFile filePath;
  match r with
  | Err e => mret (Err e)
  | Ok content => mret (getPrivateKey_loop (Split content newline))
  end.

(** The [for i, line := range lines] loop of [getVoteKey]; [rest] are the
    lines from index [i] on. *)
Fixpoint getVoteKey_loop (lines : list string) (i : nat) (rest : list string)
  : result string :=
  match rest with
  | [] => Err "vote key not found in file"
  | line :: rest' =>
      if Contains line "Secret Key:" && Nat.ltb (i + 2) (length lines) then
        Ok (TrimSpace (nth (i + 2) lines ""))
      else getVoteKey_loop lines (S i) rest'
  end.

Definition getVoteKey (filePath : string) : M N (result string) :=
  r ← ReadFile filePath;
  match r with
  | Err e => mret (Err e)
  | Ok content =>
      let lines := Split content newline in
      mret (getVoteKey_loop lines 0 lines)
  end.

Definition fundAddress (address : string) : M N bool :=
  emit (EvEnter Fund);;
  url ← gets faucetURL;
  r ← PostForm client url address;
  match r with
  | Err _ => mret false
  | Ok status => if (status =? 200)%Z then mret true else mret false
  end.

Definition activateValidator (address : string) : M N bool :=
  emit (EvEnter Activate);;
  r ← getPrivateKey "/keys/signing_key.txt";
  match r with
  | Err _ => mret false
  | Ok sigKey =>
  r ← getVoteKey "/keys/vote_key.txt";
  match r with
  | Err _ => mret false
  | Ok voteKey =>
  r ← getPrivateKey "/keys/address.txt";
  match r with
  | Err _ => mret false
  | Ok addressPrivate =>
  r ← rpc.ImportRawKey client addressPrivate "";
  match r with
  | Err _ => mret false
  | Ok _ =>
  r ← rpc.UnlockAccount client address "" 0;
  match r with
  | Err _ => mret false
  | Ok _ =>
  r ← rpc.SendNewValidatorTransaction client
        address address sigKey voteKey address "" 500 "+0";
  match r with
  | Err _ => mret false
  | Ok rawTx =>
  r ← rpc.SendRawTransaction client rawTx;
  match r with
  | Err _ => mret false
  | Ok txHash =>
      gauge_Set prometheus.ValidatorActivatedGauge address 1%Q;;
      gauge_Inc prometheus.ValidatorActivatedCounterGauge address;;
      mret true
  end end end end end end end.

Definition reActivateValidator (address : string) : M N bool :=
  emit (EvEnter Reactivate);;
  r ← getPrivateKey "/keys/signing_key.txt";
  match r with
  | Err _ => mret false
  | Ok sigKey =>
  r ← getPrivateKey "/keys/address.txt";
  match r with
  | Err _ => mret false
  | Ok addressPrivate =>
  r ← rpc.ImportRawKey client addressPrivate "";
  match r with
  | Err _ => mret false
  | Ok _ =>
  r ← rpc.UnlockAccount client address "" 0;
  match r with
  | Err _ => mret false
  | Ok _ =>
  r ← rpc.SendReactivateValidatorTransaction client
        address address sigKey 500 "+0";
  match r with
  | Err _ => mret false
  | Ok txHash =>
      gauge_Inc prometheus.ValidatorReActivatedCounterGauge address;;
      mret true
  end end end end end.

(** [details] is a pointer; its first use dereferences it. *)
Definition updateValidatorMetrics (address : string)
    (details : option ValidatorDetails) : M N unit :=
  d ← deref details;
  gauge_Set prometheus.NimiqTotalStakeGauge address (Float64.of_Z (Balance d));;
  gauge_Set prometheus.ValidatorNumStakersGauge address
            (Float64.of_Z (NumStakers d));;
  gauge_Set prometheus.ValidatorInactivityFlagGauge address
            (match InactivityFlag d with
             | Some flag => Float64.of_Z flag
             | None => 0%Q
             end);;
  gauge_Set prometheus.ValidatorRetiredGauge address
            (if Retired d then 1%Q else 0%Q);;
  gauge_Set prometheus.ValidatorJailedFromGauge address
            (match JailedFrom d with
             | Some jailedFrom => Float64.of_Z jailedFrom
             | None => 0%Q
             end);;
  gauge_Set prometheus.ValidatorActivatedGauge address 1%Q.

Definition checkSufficientBalance (address : string)
  : M N (bool * Float64.float64) :=
  r ← rpc.GetAccountBalanceByAddress client address;
  match r with
  | Err _ => mret (false, 0%Q)
  | Ok balance =>
      let balanceInNim := Float64.div (Float64.of_Z balance) 100000%Q in
      gauge_Set prometheus.ValidatorBalanceGauge address (Float64.of_Z balance);;
      mret (Float64.geb balanceInNim 100000%Q, balanceInNim)
  end.

Definition checkActive (address : string) : M N bool :=
  r ← rpc.GetValidatorByAddress client address;
  match r with
  | Err _ => mret false
  | Ok validatorDetails =>
      d ← deref validatorDetails;
      if negb (String.eqb (Address d) address) then mret false
      else mret (String.eqb (Address d) address)
  end.

Definition blocksForReactivation : Z := 8000.

Definition checkAndHandleValidatorStatus (address : string) : M N bool :=
  r ← rpc.GetValidatorByAddress client address;
  match r with
  | Err _ => activateValidator address;; mret false
  | Ok details =>
      updateValidatorMetrics address details;;
      d ← deref details;
      if Retired d then reActivateValidator address;; mret false
      else
        r ← rpc.GetCurrentBlockNumber client;
        match r with
        | Err _ => mret false
        | Ok currentBlockNumber =>
            match JailedFrom d with
            | Some jailedFrom =>
                let blocksSinceJailed := wrap64 (currentBlockNumber - jailedFrom) in
                if (blocksSinceJailed <? blocksForReactivation)%Z then
                  gauge_Set prometheus.ValidatorJailedGauge address 1%Q;;
                  gauge_Set prometheus.ValidatorJailedFromGauge address
                            (Float64.of_Z jailedFrom)
                else gauge_Set prometheus.ValidatorJailedGauge address 0%Q
            | None => mret tt
            end;;
            gauge_Set prometheus.ValidatorJailedGauge address 0%Q;;
            gauge_Set prometheus.ValidatorJailedFromGauge address 0%Q;;
            mret true
        end
  end.

(** One iteration of the [for range ticker.C] loop of [periodicUpdates];
    [true]: the function returns, [false]: the loop goes on. *)
Definition periodicUpdates_tick (address : string) : M N bool :=
  '(sufficient, currentBalance) ← checkSufficientBalance address;
  isActive ← checkActive address;
  if sufficient || isActive then
    checkAndHandleValidatorStatus address
  else
    net ← gets network;
    (if String.eqb net "testnet" then fundAddress address;; mret tt
     else mret tt);;
    mret false.

(** One iteration of the [for range ticker.C] loop of [main]; the value of
    [state] is returned for reference. *)
Definition main_tick (validatorAddress : string) : M N bool :=
  updateEpochNumberGauge;;
  state ← checkAndHandleValidatorStatus validatorAddress;
  checkSufficientBalance validatorAddress;;
  mret state.

End Main.

(** ** A scripted remote side and key files, for concrete runs

    The node state is the number of round trips answered so far. *)
Record Script : Type := mkScript {
  sc_consensus : list (result bool);
  sc_validator : result (option ValidatorDetails);
  sc_block : result Z;
  sc_balance : result Z
}.

Definition scripted (s : Script) : Client nat :=
  {| ans_isConsensusEstablished n :=
       (S n, nth n (sc_consensus s) (Err "connection refused"));
     ans_getEpochNumber n := (S n, Ok 7%Z);
     ans_getAddress n := (S n, Ok "NQ07 0000 0000 0000 0000 0000 0000 0000 0000");
     ans_getAccountByAddress _ n := (S n, sc_balance s);
     ans_getValidatorByAddress _ n := (S n, sc_validator s);
     ans_importRawKey _ _ n := (S n, Ok "NQ07 0000 0000 0000 0000 0000 0000 0000 0000");
     ans_getBlockNumber n := (S n, sc_block s);
     ans_unlockAccount _ _ _ n := (S n, Ok true);
     ans_sendNewValidatorTransaction _ _ _ _ _ _ _ _ n := (S n, Ok "0100ab");
     ans_sendReactivateValidatorTransaction _ _ _ _ _ n := (S n, Ok "9f3c");
     ans_sendRawTransaction _ n := (S n, Ok "77e1");
     ans_postForm _ _ n := (S n, Ok 200%Z) |}.

Definition lines_of (l : list string) : string :=
  String.concat (String strings.newline EmptyString) l.

Definition key_files (path : string) : option string :=
  if String.eqb path "/keys/signing_key.txt" then
    Some (lines_of ["Address:       NQ07 0000"; "Public Key:    b1c2";
                    "Private Key:   5a6b7c  "; ""])
  else if String.eqb path "/keys/vote_key.txt" then
    Some (lines_of ["# Public Key:"; ""; "aa11"; ""; "# Secret Key:"; "";
                    "cc33"; ""])
  else if String.eqb path "/keys/address.txt" then
    Some (lines_of ["Address:       NQ07 0000"; "Private Key:   0d0e0f"; ""])
  else None.

Definition no_files (path : string) : option string := None.

Definition world0 (fs : string -> option string) : World nat :=
  mkWorld 0 fs "https://faucet.pos.nimiq-testnet.com/tapit" "testnet" ∅ [].

Definition addr0 : string := "NQ07 0000 0000 0000 0000 0000 0000 0000 0000".

Definition record0 (retired : bool) (jailedFrom : option Z) : ValidatorDetails :=
  mkValidatorDetails addr0 10000000000 0 None retired jailedFrom.

(** ** Vocabulary of the properties *)

Definition Proc_eqb (p q : Proc) : bool :=
  match p, q with
  | Activate, Activate | Reactivate, Reactivate | Fund, Fund => true
  | _, _ => false
  end.

Definition enters (p : Proc) (e : Event) : bool :=
  match e with EvEnter q => Proc_eqb p q | _ => false end.

(** Procedure [p] was entered somewhere in [evs]. *)
Definition invoked (p : Proc) (evs : list Event) : bool :=
  existsb (enters p) evs.

(** The gauge writes among [evs], in order. *)
Definition published (evs : list Event) : list Event :=
  List.filter (fun e => match e with EvSet _ _ _ | EvInc _ _ => true | _ => false end)
              evs.

(** The number of consensus checks sent in [evs]. *)
Definition checks_sent (evs : list Event) : nat :=
  length (List.filter
            (fun e => match e with EvRpc isConsensusEstablished => true | _ => false end)
            evs).

Section Vocabulary.
Context {N : Type} (client : Client N).

(** The answers to [k] consensus checks in a row, from node state [n]. *)
Fixpoint consensus_answers (k : nat) (n : N) : list (result bool) :=
  match k with
  | O => []
  | S k' =>
      let '(n', r) := ans_isConsensusEstablished client n in
      r :: consensus_answers k' n'
  end.

(** A check that returns true without error. *)
Definition established (r : result bool) : bool :=
  match r with Ok true => true | _ => false end.

(** How many of the answers are asked for when checking stops at the
    first one that is not [established]. *)
Fixpoint checks_needed (answers : list (result bool)) : nat :=
  match answers with
  | [] => 0
  | r :: answers' => if established r then S (checks_needed answers') else 1
  end.

(** What the key-file readers find in a file system. *)
Definition private_key_in (fs : string -> option string) (path : string)
  : result string :=
  match fs path with
  | Some content => getPrivateKey_loop (strings.Split content strings.newline)
  | None => Err "open: no such file or directory"
  end.

Definition vote_key_in (fs : string -> option string) (path : string)
  : result string :=
  match fs path with
  | Some content =>
      let lines := strings.Split content strings.newline in
      getVoteKey_loop lines 0 lines
  | None => Err "open: no such file or directory"
  end.

(** The steps of [activateValidator] up to the submission, in order. *)
Definition activate_steps (address sigKey voteKey addressPrivate rawTx : string)
  : list Event :=
  [ EvEnter Activate;
    EvReadFile "/keys/signing_key.txt";
    EvReadFile "/keys/vote_key.txt";
    EvReadFile "/keys/address.txt";
    EvRpc (importRawKey addressPrivate "");
    EvRpc (unlockAccount address "" 0);
    EvRpc (sendNewValidatorTransaction address address sigKey voteKey address
             "" 500 "+0");
    EvRpc (sendRawTransaction rawTx) ].

(** Every step of the activation succeeds from world [w], leaving the
    node in state [n']. *)
Definition all_steps_succeed (address : string) (w : World N)
    (sigKey voteKey addressPrivate rawTx : string) (n' : N) : Prop :=
  private_key_in (files w) "/keys/signing_key.txt" = Ok sigKey /\
  vote_key_in (files w) "/keys/vote_key.txt" = Ok voteKey /\
  private_key_in (files w) "/keys/address.txt" = Ok addressPrivate /\
  exists n1 n2 n3 imported txHash,
    ans_importRawKey client addressPrivate "" (node w) = (n1, Ok imported) /\
    imported <> ""%string /\
    ans_unlockAccount client address "" 0 n1 = (n2, Ok true) /\
    ans_sendNewValidatorTransaction client address address sigKey voteKey
      address "" 500 "+0" n2 = (n3, Ok rawTx) /\
    ans_sendRawTransaction client rawTx n3 = (n', Ok txHash).

(** The result of the lifecycle check as a function of the answer [r] to
    the record fetch and of the node state [n1] after it. *)
Definition fetch_failed (r : result (option ValidatorDetails)) : bool :=
  match r with Err _ => true | Ok _ => false end.

Definition retired_flag (r : result (option ValidatorDetails)) : bool :=
  match r with Ok (Some d) => Retired d | _ => false end.

(** The fetch succeeded but the [data] field was null: a nil pointer. *)
Definition null_record (r : result (option ValidatorDetails)) : bool :=
  match r with Ok None => true | _ => false end.

Definition block_query_failed (n1 : N) : bool :=
  negb (is_Ok (ans_getBlockNumber client n1).2).

End Vocabulary.

(** The first line starting with "Private Key:" and what follows the label. *)
Definition first_private_key_line (lines : list string) : option string :=
  List.find (fun line => strings.HasPrefix line "Private Key:") lines.

Definition after_label (line : string) : string :=
  strings.drop_bytes (String.length "Private Key:") line.

(** The index of the first line containing "Secret Key:". *)
Fixpoint first_secret_key_line (lines : list string) : option nat :=
  match lines with
  | [] => None
  | line :: lines' =>
      if strings.Contains line "Secret Key:" then Some 0
      else option_map S (first_secret_key_line lines')
  end.


(** Concrete nodes.  A registered validator with a jail marker at block 100
    seen at block 5000; a retired one; an active one; an address without a
    validator record holding 40,000 NIM. *)
Definition jailed_node : Client nat :=
  scripted (mkScript [] (Ok (Some (record0 false (Some 100%Z)))) (Ok 5000%Z)
                     (Ok 10000000000%Z)).

Definition retired_node : Client nat :=
  scripted (mkScript [] (Ok (Some (record0 true (Some 100%Z)))) (Ok 5000%Z)
                     (Ok 10000000000%Z)).

Definition active_node : Client nat :=
  scripted (mkScript [Ok true; Ok true; Ok true]
                     (Ok (Some (record0 false None))) (Ok 5000%Z)
                     (Ok 10000000000%Z)).

Definition unregistered_node : Client nat :=
  scripted (mkScript [] (Err "RPC error: validator not found") (Ok 5000%Z)
                     (Ok 4000000000%Z)).


(** ** Configuration from the environment *)

(** [os.Getenv]: the value of a variable, "" when it is not set. *)
Definition Getenv : Type := string -> string.

Module strconv.

Definition digit (c : ascii) : option Z :=
  let n := Z.of_nat (nat_of_ascii c) in
  if (48 <=? n)%Z && (n <=? 57)%Z then Some (n - 48)%Z else None.

(** The value of a string of decimal digits, most significant first. *)
Fixpoint digits (acc : Z) (s : string) : option Z :=
  match s with
  | EmptyString => Some acc
  | String c s' =>
      match digit c with
      | Some d => digits (acc * 10 + d)%Z s'
      | None => None
      end
  end.

(** [strconv.Atoi]: an optional sign and at least one decimal digit, the
    value within the 64-bit [int]; anything else is an error. *)
Definition Atoi (s : string) : result Z :=
  match s with
  | EmptyString => Err "strconv.Atoi: invalid syntax"
  | String c s' =>
      let neg := Ascii.eqb c "-"%char in
      let body := if neg || Ascii.eqb c "+"%char then s' else s in
      match body with
      | EmptyString => Err "strconv.Atoi: invalid syntax"
      | String _ _ =>
          match digits 0 body with
          | None => Err "strconv.Atoi: invalid syntax"
          | Some v =>
              let n := if neg then (- v)%Z else v in
              if (- 2 ^ 63 <=? n)%Z && (n <? 2 ^ 63)%Z then Ok n
              else Err "strconv.Atoi: value out of range"
          end
      end
  end.

End strconv.

Definition getServingPort (getenv : Getenv) : string :=
  let servingPortStr := getenv "PROMETHEUS_PORT" in
  if String.eqb servingPortStr "" then ":8000"
  else match strconv.Atoi servingPortStr with
       | Ok _ => String.append ":" servingPortStr
       | Err _ => ":8000"
       end.

(** The package-level variables set by [init]. *)
Record Globals : Type := mkGlobals {
  var_faucetURL : string;
  var_network : string;
  var_nimiqNodeUrl : string
}.

Definition init (getenv : Getenv) : Globals :=
  let nimiqNodeUrl := getenv "NIMIQ_NODE_URL" in
  let nimiqNodeUrl :=
    if String.eqb nimiqNodeUrl "" then "http://node:8648" else nimiqNodeUrl in
  let faucetURL := getenv "FAUCET_URL" in
  let faucetURL :=
    if String.eqb faucetURL "" then "https://faucet.pos.nimiq-testnet.com/tapit"
    else faucetURL in
  let network := getenv "NIMIQ_NETWORK" in
  let network := if String.eqb network "" then "testnet" else network in
  mkGlobals faucetURL network nimiqNodeUrl.

(** [rpc.NewClient]: the [NodeURL] of the client. *)
Definition NewClient (getenv : Getenv) : string :=
  let nodeURL := getenv "NIMIQ_NODE_URL" in
  if String.eqb nodeURL "" then "http://node:8648" else nodeURL.

(** The world in which [main] starts: the variables of [init], an empty
    registry, nothing done yet. *)
Definition start_world {N} (getenv : Getenv) (n : N)
    (fs : string -> option string) : World N :=
  mkWorld n fs (var_faucetURL (init getenv)) (var_network (init getenv)) ∅ [].

(** The [for _, stake := range stakeResult.Data] loop of
    [GetTotalStakeByValidatorAddress], in [int64]. *)
Definition totalStake_loop (data : list Z) : Z :=
  fold_left (fun totalStake balance => wrap64 (totalStake + balance)) data 0%Z.

(** ** The loops of package main *)
Section Loops.
Context {N : Type} (client : Client N).

(** [periodicUpdates] over the first [ticks] ticks of its ticker; [true]:
    the function has returned, [false]: it is still in its loop. *)
Fixpoint periodicUpdates (ticks : nat) (address : string) : M N bool :=
  match ticks with
  | O => mret false
  | S ticks' =>
      exit ← periodicUpdates_tick client address;
      if (exit : bool) then mret true else periodicUpdates ticks' address
  end.

(** Where [main] stands when it has run up to its ticker loop. *)
Inductive Startup : Type :=
| NoConsensus
| NoAddress
| StillFunding
| MainLoop (validatorAddress : string).

(** [main] up to the [for range ticker.C] loop; [periodicUpdates] is given
    [ticks] ticks.  The goroutine serving /metrics is not part of it. *)
Definition main_startup (ticks : nat) : M N Startup :=
  consensus ← checkConsensus client;
  if negb consensus then mret NoConsensus
  else
    updateEpochNumberGauge client;;
    r ← rpc.GetAddress client;
    match r with
    | Err _ => mret NoAddress
    | Ok validatorAddress =>
        gauge_Set prometheus.ValidatorActivatedGauge validatorAddress 0%Q;;
        gauge_Set prometheus.ValidatorActivatedCounterGauge validatorAddress 0%Q;;
        r ← rpc.GetValidatorByAddress client validatorAddress;
        match r with
        | Err _ =>
            '(sufficientBalance, currentBalance) ←
              checkSufficientBalance client validatorAddress;
            if (sufficientBalance : bool) then
              checkAndHandleValidatorStatus client validatorAddress;;
              mret (MainLoop validatorAddress)
            else
              returned ← periodicUpdates ticks validatorAddress;
              if (returned : bool) then mret (MainLoop validatorAddress)
              else mret StillFunding
        | Ok _ => mret (MainLoop validatorAddress)
        end
    end.

(** The ticker loop of [main] over [ticks] ticks. *)
Fixpoint main_loop (ticks : nat) (validatorAddress : string) : M N unit :=
  match ticks with
  | O => mret tt
  | S ticks' =>
      main_tick client validatorAddress;;
      main_loop ticks' validatorAddress
  end.

End Loops.

(** ** The earlier version of the lifecycle check (src/unnamed/part_001) *)
Module part_001.
Section Earlier.
Context {N : Type} (client : Client N).

Definition updateValidatorMetrics (address : string)
    (details : option ValidatorDetails) : M N unit :=
  d ← deref details;
  gauge_Set prometheus.ValidatorBalanceGauge address (Float64.of_Z (Balance d));;
  gauge_Set prometheus.ValidatorNumStakersGauge address
            (Float64.of_Z (NumStakers d));;
  gauge_Set prometheus.ValidatorInactivityFlagGauge address
            (match InactivityFlag d with
             | Some flag => Float64.of_Z flag
             | None => 0%Q
             end);;
  gauge_Set prometheus.ValidatorRetiredGauge address
            (if Retired d then 1%Q else 0%Q);;
  gauge_Set prometheus.ValidatorJailedFromGauge address
            (match JailedFrom d with
             | Some jailedFrom => Float64.of_Z jailedFrom
             | None => 0%Q
             end);;
  gauge_Set prometheus.ValidatorActivatedGauge address 1%Q.

Definition checkAndHandleValidatorStatus (address : string) : M N bool :=
  r ← rpc.GetValidatorByAddress client address;
  match r with
  | Err _ => activateValidator client address;; mret false
  | Ok details =>
      updateValidatorMetrics address details;;
      d ← deref details;
      if Retired d then reActivateValidator client address;; mret false
      else
        match JailedFrom d with
        | Some jailedFrom =>
            gauge_Set prometheus.ValidatorJailedGauge address 1%Q;;
            gauge_Set prometheus.ValidatorJailedFromGauge address
                      (Float64.of_Z jailedFrom);;
            mret false
        | None =>
            gauge_Set prometheus.ValidatorJailedGauge address 0%Q;;
            gauge_Set prometheus.ValidatorJailedFromGauge address 0%Q;;
            mret true
        end
  end.

End Earlier.
End part_001.

(** ** More vocabulary *)

(** How many times procedure [p] was entered in [evs]. *)
Definition entered (p : Proc) (evs : list Event) : nat :=
  length (List.filter (enters p) evs).

(** The requests sent to the node in [evs], in order. *)
Fixpoint requests (evs : list Event) : list Call :=
  match evs with
  | [] => []
  | EvRpc c :: evs' => c :: requests evs'
  | _ :: evs' => requests evs'
  end.

(** The steps of [reActivateValidator] up to the submission, in order. *)
Definition reactivate_steps (address sigKey addressPrivate : string)
  : list Event :=
  [ EvEnter Reactivate;
    EvReadFile "/keys/signing_key.txt";
    EvReadFile "/keys/address.txt";
    EvRpc (importRawKey addressPrivate "");
    EvRpc (unlockAccount address "" 0);
    EvRpc (sendReactivateValidatorTransaction address address sigKey 500 "+0") ].

Section Vocabulary2.
Context {N : Type} (client : Client N).

(** Every step of the reactivation succeeds from world [w], leaving the
    node in state [n']. *)
Definition all_reactivation_steps_succeed (address : string) (w : World N)
    (sigKey addressPrivate : string) (n' : N) : Prop :=
  private_key_in (files w) "/keys/signing_key.txt" = Ok sigKey /\
  private_key_in (files w) "/keys/address.txt" = Ok addressPrivate /\
  exists n1 n2 imported txHash,
    ans_importRawKey client addressPrivate "" (node w) = (n1, Ok imported) /\
    imported <> ""%string /\
    ans_unlockAccount client address "" 0 n1 = (n2, Ok true) /\
    ans_sendReactivateValidatorTransaction client address address sigKey
      500 "+0" n2 = (n', Ok txHash).

(** The node never shows a validator record for [address]. *)
Definition never_registered (address : string) : Prop :=
  forall n, fetch_failed (ans_getValidatorByAddress client address n).2 = true.

(** The balance of [address] cannot be read or stays below the threshold. *)
Definition never_funded (address : string) : Prop :=
  forall n,
    match (ans_getAccountByAddress client address n).2 with
    | Ok balance => (balance < 10000000000)%Z
    | Err _ => True
    end.

End Vocabulary2.

(** The seconds spent in [time.Sleep] in [evs]. *)
Definition slept (evs : list Event) : Z :=
  fold_right (fun e s => match e with EvSleep seconds => (seconds + s)%Z | _ => s end)
             0%Z evs.

(** The sum of a list of amounts, in unbounded integers. *)
Definition total (data : list Z) : Z := fold_right Z.add 0%Z data.

Section Vocabulary3.
Context {N : Type} (client : Client N).

(** The state of the node after [k] consensus checks. *)
Fixpoint after_checks (k : nat) (n : N) : N :=
  match k with
  | O => n
  | S k' => after_checks k' (ans_isConsensusEstablished client n).1
  end.

(** The first answer that is not [established], if any. *)
Definition refusal (answers : list (result bool)) : option (result bool) :=
  List.find (fun r => negb (established r)) answers.

End Vocabulary3.

(** ** More scripted nodes *)

(** A node that answers the record query with a null [data] field. *)
Definition null_node : Client nat :=
  scripted (mkScript [] (Ok None) (Ok 5000%Z) (Ok 10000000000%Z)).

(** A node whose record query succeeds on the second round trip only, and
    whose account never reaches the threshold. *)
Definition flapping_node : Client nat :=
  {| ans_isConsensusEstablished n := (S n, Ok true);
     ans_getEpochNumber n := (S n, Ok 7%Z);
     ans_getAddress n := (S n, Ok addr0);
     ans_getAccountByAddress _ n := (S n, Ok 4000000000%Z);
     ans_getValidatorByAddress _ n :=
       (S n, if Nat.eqb n 1 then Ok (Some (record0 false None))
             else Err "RPC error: validator not found");
     ans_importRawKey _ _ n := (S n, Ok addr0);
     ans_getBlockNumber n := (S n, Ok 5000%Z);
     ans_unlockAccount _ _ _ n := (S n, Ok true);
     ans_sendNewValidatorTransaction _ _ _ _ _ _ _ _ n := (S n, Ok "0100ab");
     ans_sendReactivateValidatorTransaction _ _ _ _ _ n := (S n, Ok "9f3c");
     ans_sendRawTransaction _ n := (S n, Ok "77e1");
     ans_postForm _ _ n := (S n, Ok 200%Z) |}.

(** The world an outcome ends in; [w] when the process has panicked. *)
Definition final {N A} (o : Outcome N A) (w : World N) : World N :=
  match o with
  | Returned _ w' => w'
  | Panicked => w
  end.

(** The string begins with a white-space rune. *)
Definition leading_space (s : string) : bool :=
  match strings.dropSpace strings.spaceRunes s with
  | Some _ => true
  | None => false
  end.

(** The string ends with a white-space rune. *)
Definition trailing_space (s : string) : bool :=
  match strings.dropSpace (map strings.reverse strings.spaceRunes)
                          (strings.reverse s) with
  | Some _ => true
  | None => false
  end.

(** A node with established consensus that does not tell its address. *)
Definition silent_node : Client nat :=
  {| ans_isConsensusEstablished n := (S n, Ok true);
     ans_getEpochNumber n := (S n, Ok 7%Z);
     ans_getAddress n := (S n, Err "connection refused");
     ans_getAccountByAddress _ n := (S n, Ok 4000000000%Z);
     ans_getValidatorByAddress _ n := (S n, Err "RPC error: validator not found");
     ans_importRawKey _ _ n := (S n, Ok addr0);
     ans_getBlockNumber n := (S n, Ok 5000%Z);
     ans_unlockAccount _ _ _ n := (S n, Ok true);
     ans_sendNewValidatorTransaction _ _ _ _ _ _ _ _ n := (S n, Ok "0100ab");
     ans_sendReactivateValidatorTransaction _ _ _ _ _ n := (S n, Ok "9f3c");
     ans_sendRawTransaction _ n := (S n, Ok "77e1");
     ans_postForm _ _ n := (S n, Ok 200%Z) |}.

(** The value an outcome returns, if it returns. *)
Definition value {N A} (o : Outcome N A) : option A :=
  match o with
  | Returned a _ => Some a
  | Panicked => None
  end.

(** A node with established consensus, no validator record and an account
    holding the threshold. *)
Definition funded_node : Client nat :=
  scripted (mkScript [Ok true; Ok true; Ok true]
                     (Err "RPC error: validator not found") (Ok 5000%Z)
                     (Ok 10000000000%Z)).

(** ** The text of a key file, described without the functions of [strings]

    What "line", "starts with", "contains" and "white-space trimmed" mean
    for a sequence of bytes, by concatenation alone. *)
Module text.

Definition utf8 (l : list nat) : string :=
  string_of_list_ascii (map ascii_of_nat l).

(** The UTF-8 encodings of the code points with the White_Space property:
    U+0009..U+000D, U+0020, U+0085, U+00A0, U+1680, U+2000..U+200A, U+2028,
    U+2029, U+202F, U+205F, U+3000. *)
Definition white_space : list string :=
  map utf8
    [ [9]; [10]; [11]; [12]; [13]; [32];
      [194; 133]; [194; 160]; [225; 154; 128];
      [226; 128; 128]; [226; 128; 129]; [226; 128; 130]; [226; 128; 131];
      [226; 128; 132]; [226; 128; 133]; [226; 128; 134]; [226; 128; 135];
      [226; 128; 136]; [226; 128; 137]; [226; 128; 138];
      [226; 128; 168]; [226; 128; 169]; [226; 128; 175];
      [226; 129; 159]; [227; 128; 128] ].

(** A concatenation of strings that satisfy [rune]. *)
Inductive made_of (rune : string -> Prop) : string -> Prop :=
| made_of_nil : made_of rune EmptyString
| made_of_cons r s :
    rune r -> made_of rune s -> made_of rune (String.append r s).

(** Nothing but white space. *)
Definition blank (s : string) : Prop :=
  made_of (fun r => In r white_space) s.

(** [key] is [s] without the white space at its two ends. *)
Definition trimmed (s key : string) : Prop :=
  exists pre post,
    s = String.append pre (String.append key post) /\
    blank pre /\ blank post /\
    (forall r rest, In r white_space -> key <> String.append r rest) /\
    (forall r rest, In r white_space -> key <> String.append rest r).

Definition starts_with (line label : string) : Prop :=
  exists rest, line = String.append label rest.

Definition contains (line label : string) : Prop :=
  exists a b, line = String.append a (String.append label b).

Definition line_feed : string := utf8 [10].

(** [lines] are the lines of [content]: the pieces between its line feeds. *)
Definition lines_of (content : string) (lines : list string) : Prop :=
  lines <> [] /\
  String.concat line_feed lines = content /\
  Forall (fun line => ~ contains line line_feed) lines.

End text.

(** A white-space rune as [strings.dropSpace] looks for it: one byte of
    [strings.asciiSpace] or one of the strings [runes]. *)
Definition space_in (runes : list string) (r : string) : Prop :=
  (exists c, r = String c EmptyString /\ strings.asciiSpace c = true) \/
  In r runes.

(** A node with an active validator whose block number query fails on the
    second round trip only. *)
Definition recovering_node : Client nat :=
  {| ans_isConsensusEstablished n := (S n, Ok true);
     ans_getEpochNumber n := (S n, Ok 7%Z);
     ans_getAddress n := (S n, Ok addr0);
     ans_getAccountByAddress _ n := (S n, Ok 10000000000%Z);
     ans_getValidatorByAddress _ n := (S n, Ok (Some (record0 false None)));
     ans_importRawKey _ _ n := (S n, Ok addr0);
     ans_getBlockNumber n :=
       (S n, if Nat.eqb n 1 then Err "connection refused" else Ok 5000%Z);
     ans_unlockAccount _ _ _ n := (S n, Ok true);
     ans_sendNewValidatorTransaction _ _ _ _ _ _ _ _ n := (S n, Ok "0100ab");
     ans_sendReactivateValidatorTransaction _ _ _ _ _ n := (S n, Ok "9f3c");
     ans_sendRawTransaction _ n := (S n, Ok "77e1");
     ans_postForm _ _ n := (S n, Ok 200%Z) |}.

(** Two lifecycle evaluations in a row on [recovering_node]: the world
    after the first and the world after the second. *)
Definition recovering_first : World nat :=
  final (checkAndHandleValidatorStatus recovering_node addr0 (world0 key_files))
        (world0 key_files).

Definition recovering_second : World nat :=
  final (checkAndHandleValidatorStatus recovering_node addr0 recovering_first)
        recovering_first.


(** * Properties *)

(** ** Rounding to binary64 is monotone *)
Module Float64_facts.
Import Float64.
#[local] Open Scope Q_scope.

Lemma rne_cases x :
  (rne x = Qfloor x \/ rne x = (Qfloor x + 1)%Z).
Proof. unfold rne. destruct (Qcompare _ _); [destruct (Z.even _)|..]; auto. Qed.

Lemma rne_mono x y : x <= y -> (rne x <= rne y)%Z.
Proof.
  intros Hxy.
  pose proof (Qfloor_resp_le _ _ Hxy) as Hf.
  destruct (Z.eq_dec (Qfloor x) (Qfloor y)) as [E | NE].
  - unfold rne. rewrite <- E.
    destruct (Qcompare_spec (x - inject_Z (Qfloor x)) (1 # 2)) as [H1|H1|H1];
      destruct (Qcompare_spec (y - inject_Z (Qfloor x)) (1 # 2)) as [H2|H2|H2];
      try destruct (Z.even (Qfloor x)); try lia; exfalso; lra.
  - destruct (rne_cases x) as [-> | ->], (rne_cases y) as [-> | ->]; lia.
Qed.

Lemma rne_Z k : rne (inject_Z k) = k.
Proof.
  unfold rne. rewrite Qfloor_Z.
  destruct (Qcompare_spec (inject_Z k - inject_Z k) (1 # 2)) as [H|H|H]; try reflexivity; exfalso; lra.
Qed.

Lemma two_pow_pos k : 0 < 2 ^ k.
Proof. apply Qpower_0_lt. reflexivity. Qed.

Lemma two_pow_succ k : 2 ^ (k + 1) == 2 * 2 ^ k.
Proof. rewrite Qpower_plus by discriminate. change (2 ^ 1) with (2 * 1). ring. Qed.

Lemma two_pow_le a b : (a <= b)%Z -> 2 ^ a <= 2 ^ b.
Proof. intros. apply Qpower_le_compat_l; [assumption | lra]. Qed.

Lemma inject_Z_pow a : (0 <= a)%Z -> inject_Z (2 ^ a) == 2 ^ a.
Proof. intros. rewrite Zpower_Qpower by assumption. reflexivity. Qed.

Lemma Q_as_quotient (x : Q) : x * inject_Z (Zpos (Qden x)) == inject_Z (Qnum x).
Proof.
  destruct x as [n d]. unfold Qeq, Qmult, inject_Z. cbn [Qnum Qden].
  rewrite Pos.mul_1_r. lia.
Qed.

Lemma log2_bounds_Q (n : Z) :
  (0 < n)%Z -> 2 ^ Z.log2 n <= inject_Z n /\ inject_Z n < 2 * 2 ^ Z.log2 n.
Proof.
  intros Hn. destruct (Z.log2_spec n Hn) as [Hlo Hhi].
  pose proof (Z.log2_nonneg n) as Hnn.
  split.
  - rewrite <- inject_Z_pow by assumption. rewrite <- Zle_Qle. assumption.
  - rewrite <- two_pow_succ. rewrite <- inject_Z_pow by lia.
    rewrite <- Zlt_Qlt. assumption.
Qed.

Lemma ilog2_spec x : 0 < x -> 2 ^ ilog2 x <= x /\ x < 2 * 2 ^ ilog2 x.
Proof.
  intros Hx.
  assert (Hn : (0 < Qnum x)%Z).
  { destruct x as [n d]. unfold Qlt in Hx. simpl in *. lia. }
  destruct (log2_bounds_Q (Qnum x) Hn) as [HA1 HA2].
  destruct (log2_bounds_Q (Zpos (Qden x)) eq_refl) as [HB1 HB2].
  pose proof (Q_as_quotient x) as Hq.
  pose proof (two_pow_pos (Z.log2 (Qnum x))) as HA.
  pose proof (two_pow_pos (Z.log2 (Zpos (Qden x)))) as HB.
  unfold ilog2.
  set (k := (Z.log2 (Qnum x) - Z.log2 (Z.pos (Qden x)))%Z).
  assert (Hk : 2 ^ k * 2 ^ Z.log2 (Z.pos (Qden x)) == 2 ^ Z.log2 (Qnum x)).
  { rewrite <- Qpower_plus by discriminate. subst k.
    replace (Z.log2 (Qnum x) - Z.log2 (Z.pos (Qden x)) + Z.log2 (Z.pos (Qden x)))%Z
      with (Z.log2 (Qnum x)) by lia. reflexivity. }
  pose proof (two_pow_pos k) as HP.
  revert Hq HA1 HA2 HB1 HB2 HA HB Hk HP.
  generalize (2 ^ Z.log2 (Qnum x)) as A, (2 ^ Z.log2 (Z.pos (Qden x))) as B,
    (inject_Z (Qnum x)) as n, (inject_Z (Z.pos (Qden x))) as d.
  intros A B n d Hq HA1 HA2 HB1 HB2 HA HB Hk HP.
  destruct (Qle_bool (2 ^ k) x) eqn:E.
  - apply Qle_bool_iff in E. split; [assumption|].
    generalize dependent (2 ^ k). intros P. intros. nra.
  - assert (E' : x < 2 ^ k).
    { apply Qnot_le_lt. intros H. apply Qle_bool_iff in H. congruence. }
    assert (Hk1 : 2 * 2 ^ (k - 1) == 2 ^ k).
    { rewrite <- two_pow_succ. replace (k - 1 + 1)%Z with k by lia. reflexivity. }
    pose proof (two_pow_pos (k - 1)) as HP1.
    generalize dependent (2 ^ (k - 1)). intros P1.
    generalize dependent (2 ^ k). intros P. intros. split; nra.
Qed.

Lemma Qabs_pos_eq x : 0 < x -> Qabs x = x.
Proof.
  destruct x as [n d]. unfold Qlt. cbn [Qnum Qden Qabs]. intros H.
  f_equal. lia.
Qed.

Lemma round64_pos_eq x :
  0 < x -> round64 x == inject_Z (rne (x / 2 ^ (ilog2 x - 52))) * 2 ^ (ilog2 x - 52).
Proof.
  intros Hx. unfold round64, ulp.
  destruct (Qeq_bool x 0) eqn:E.
  - apply Qeq_bool_iff in E. lra.
  - rewrite Qred_correct, (Qabs_pos_eq x Hx). reflexivity.
Qed.

Lemma two_pow_52 k : 2 ^ k == inject_Z (2 ^ 52) * 2 ^ (k - 52).
Proof.
  rewrite inject_Z_pow by lia. rewrite <- Qpower_plus by discriminate.
  replace (52 + (k - 52))%Z with k by lia. reflexivity.
Qed.

(** The rounded value stays in the closed binade of its argument. *)
Lemma round64_binade x :
  0 < x -> 2 ^ ilog2 x <= round64 x /\ round64 x <= 2 * 2 ^ ilog2 x.
Proof.
  intros Hx. destruct (ilog2_spec x Hx) as [Hlo Hhi].
  rewrite (round64_pos_eq x Hx).
  pose proof (two_pow_52 (ilog2 x)) as Hk.
  pose proof (two_pow_pos (ilog2 x - 52)) as HU.
  set (U := 2 ^ (ilog2 x - 52)) in *.
  assert (H1 : inject_Z (2 ^ 52) <= x / U).
  { apply Qle_shift_div_l; [assumption | lra]. }
  assert (H2 : x / U <= inject_Z (2 ^ 53)).
  { apply Qle_shift_div_r; [assumption |].
    change (2 ^ 53)%Z with (2 * 2 ^ 52)%Z. rewrite inject_Z_mult.
    change (inject_Z 2) with 2. lra. }
  apply rne_mono in H1, H2. rewrite rne_Z in H1, H2.
  rewrite Zle_Qle in H1, H2.
  change (2 ^ 53)%Z with (2 * 2 ^ 52)%Z in H2. rewrite inject_Z_mult in H2.
  change (inject_Z 2) with 2 in H2.
  generalize dependent (inject_Z (rne (x / U))). intros m H1 H2.
  generalize dependent (inject_Z (2 ^ 52)). intros c. intros.
  generalize dependent (2 ^ ilog2 x). intros. split; nra.
Qed.

Lemma ilog2_mono x y : 0 < x -> x <= y -> (ilog2 x <= ilog2 y)%Z.
Proof.
  intros Hx Hxy.
  destruct (ilog2_spec x Hx) as [Hx1 _].
  destruct (ilog2_spec y) as [_ Hy2]; [lra |].
  destruct (Z_le_gt_dec (ilog2 x) (ilog2 y)) as [H | H]; [assumption | exfalso].
  assert (Hp : 2 ^ (ilog2 y + 1) <= 2 ^ ilog2 x) by (apply two_pow_le; lia).
  rewrite two_pow_succ in Hp. lra.
Qed.

Lemma round64_mono_pos x y : 0 < x -> x <= y -> round64 x <= round64 y.
Proof.
  intros Hx Hxy. assert (Hy : 0 < y) by lra.
  pose proof (ilog2_mono x y Hx Hxy) as Hk.
  destruct (Z.eq_dec (ilog2 x) (ilog2 y)) as [E | NE].
  - rewrite (round64_pos_eq x Hx), (round64_pos_eq y Hy), E.
    pose proof (two_pow_pos (ilog2 y - 52)) as HU.
    set (U := 2 ^ (ilog2 y - 52)) in *.
    assert (H : x / U <= y / U).
    { apply Qle_shift_div_l; [assumption |].
      assert (Hxu : x / U * U == x) by (field; lra).
      rewrite Hxu. assumption. }
    apply rne_mono in H. rewrite Zle_Qle in H.
    apply Qmult_le_compat_r; [assumption | lra].
  - destruct (round64_binade x Hx) as [_ Hx2].
    destruct (round64_binade y Hy) as [Hy1 _].
    assert (Hp : 2 ^ (ilog2 x + 1) <= 2 ^ ilog2 y) by (apply two_pow_le; lia).
    rewrite two_pow_succ in Hp. lra.
Qed.

Lemma round64_pos x : 0 < x -> 0 < round64 x.
Proof.
  intros Hx. destruct (round64_binade x Hx) as [H _].
  pose proof (two_pow_pos (ilog2 x)). lra.
Qed.

Lemma rne_nonpos x : x <= 0 -> (rne x <= 0)%Z.
Proof.
  intros H. change (x <= inject_Z 0) in H.
  apply rne_mono in H. rewrite rne_Z in H. assumption.
Qed.

Lemma round64_nonpos x : x <= 0 -> round64 x <= 0.
Proof.
  intros Hx. unfold round64. destruct (Qeq_bool x 0); [lra |].
  rewrite Qred_correct.
  pose proof (two_pow_pos (ilog2 (Qabs x) - 52)) as HU. fold (ulp x) in HU.
  assert (H : x / ulp x <= 0).
  { apply Qle_shift_div_r; [assumption | lra]. }
  apply rne_nonpos in H. rewrite Zle_Qle in H.
  change (inject_Z 0) with 0 in H.
  generalize dependent (inject_Z (rne (x / ulp x))). intros. nra.
Qed.

(** The threshold of [checkSufficientBalance]: computed in binary64, the
    comparison agrees with the comparison of the integers. *)
Lemma balance_threshold (balance : Z) :
  geb (div (of_Z balance) 100000) 100000 = (10000000000 <=? balance)%Z.
Proof.
  unfold geb, div, of_Z.
  destruct (Z.leb_spec 10000000000 balance) as [H | H].
  - apply Qle_bool_iff.
    assert (H1 : round64 (inject_Z 10000000000) <= round64 (inject_Z balance)).
    { apply round64_mono_pos; [reflexivity | rewrite <- Zle_Qle; assumption]. }
    assert (E1 : round64 (inject_Z 10000000000) = inject_Z 10000000000) by (vm_compute; reflexivity).
    rewrite E1 in H1.
    assert (E2 : round64 (inject_Z 10000000000 / 100000) = 100000) by (vm_compute; reflexivity).
    rewrite <- E2 at 1.
    apply round64_mono_pos; [reflexivity |].
    apply Qmult_le_compat_r; [assumption | discriminate].
  - destruct (Qle_bool 100000 _) eqn:E; [exfalso | reflexivity].
    apply Qle_bool_iff in E.
    destruct (Z_le_gt_dec balance 0) as [Hb | Hb].
    + assert (H1 : round64 (inject_Z balance) <= 0).
      { apply round64_nonpos. change 0 with (inject_Z 0). rewrite <- Zle_Qle. assumption. }
      assert (H2 : round64 (round64 (inject_Z balance) / 100000) <= 0).
      { apply round64_nonpos. apply Qle_shift_div_r; [reflexivity | lra]. }
      lra.
    + assert (H0 : 0 < inject_Z balance).
      { change 0 with (inject_Z 0). rewrite <- Zlt_Qlt. lia. }
      assert (H1 : round64 (inject_Z balance) <= round64 (inject_Z 9999999999)).
      { apply round64_mono_pos; [assumption | rewrite <- Zle_Qle; lia]. }
      assert (E1 : round64 (inject_Z 9999999999) = inject_Z 9999999999) by (vm_compute; reflexivity).
      rewrite E1 in H1.
      pose proof (round64_pos _ H0) as Hp.
      assert (H2 : round64 (round64 (inject_Z balance) / 100000)
                   <= round64 (inject_Z 9999999999 / 100000)).
      { apply round64_mono_pos.
        - apply Qlt_shift_div_l; [reflexivity | lra].
        - apply Qmult_le_compat_r; [assumption | discriminate]. }
      assert (E2 : round64 (inject_Z 9999999999 / 100000) < 100000) by (vm_compute; reflexivity).
      lra.
Qed.

(** On the sample inputs the conversion, the division by 100000 and the
    increment agree with the Standard Library's binary64 arithmetic. *)
Example agrees_with_SpecFloat_on_samples :
  map (fun z => binary64_value (binary64_of_Z z)) samples =
    map (fun z => Some (of_Z z)) samples /\
  map (fun z => binary64_value
                  (SFdiv 53 1024 (binary64_of_Z z) (binary64_of_Z 100000)))
      samples =
    map (fun z => Some (div (of_Z z) 100000)) samples /\
  map (fun z => binary64_value (SFadd 53 1024 (binary64_of_Z z) (binary64_of_Z 1)))
      samples =
    map (fun z => Some (add (of_Z z) 1)) samples.
Proof. vm_compute. repeat split; reflexivity. Qed.

End Float64_facts.

(** ** The loops of the key-file readers *)
Section KeyFiles.
Import strings.

Lemma TrimPrefix_after_label line :
  HasPrefix line "Private Key:" = true ->
  TrimPrefix line "Private Key:" = after_label line.
Proof. intros H. unfold TrimPrefix, after_label. by rewrite H. Qed.

Lemma getPrivateKey_loop_first lines :
  getPrivateKey_loop lines =
  match first_private_key_line lines with
  | Some line => Ok (TrimSpace (after_label line))
  | None => Err "private key not found in file"
  end.
Proof.
  unfold first_private_key_line.
  induction lines as [| line lines IH]; [reflexivity |].
  cbn [getPrivateKey_loop List.find].
  destruct (HasPrefix line "Private Key:") eqn:E; [| exact IH].
  by rewrite TrimPrefix_after_label.
Qed.

Lemma getVoteKey_loop_out_of_range lines i rest :
  length lines <= i + 2 ->
  getVoteKey_loop lines i rest = Err "vote key not found in file".
Proof.
  revert i. induction rest as [| line rest IH]; intros i Hi; [reflexivity |].
  cbn [getVoteKey_loop].
  destruct (Nat.ltb_spec (i + 2) (length lines)); [lia |].
  rewrite andb_false_r. apply IH. lia.
Qed.

Lemma getVoteKey_loop_first lines i rest :
  getVoteKey_loop lines i rest =
  match first_secret_key_line rest with
  | Some j =>
      match lines !! (i + j + 2) with
      | Some line => Ok (TrimSpace line)
      | None => Err "vote key not found in file"
      end
  | None => Err "vote key not found in file"
  end.
Proof.
  revert i. induction rest as [| line rest IH]; intros i; [reflexivity |].
  cbn [getVoteKey_loop first_secret_key_line].
  destruct (Contains line "Secret Key:") eqn:E; cbn [andb].
  - rewrite Nat.add_0_r.
    destruct (Nat.ltb_spec (i + 2) (length lines)) as [Hlt | Hge].
    + destruct (lookup_lt_is_Some_2 lines (i + 2) Hlt) as [l Hl].
      rewrite Hl. f_equal. f_equal. rewrite nth_lookup, Hl. reflexivity.
    + rewrite (lookup_ge_None_2 lines (i + 2)) by lia.
      apply getVoteKey_loop_out_of_range. lia.
  - rewrite IH. destruct (first_secret_key_line rest) as [j |]; [| reflexivity].
    cbn [option_map]. replace (S i + j + 2) with (i + S j + 2) by lia. reflexivity.
Qed.

Lemma first_secret_key_line_Some lines i :
  first_secret_key_line lines = Some i ->
  exists line, lines !! i = Some line /\ Contains line "Secret Key:" = true.
Proof.
  revert i. induction lines as [| l lines IH]; intros i; [discriminate |].
  cbn [first_secret_key_line].
  destruct (Contains l "Secret Key:") eqn:E.
  - intros [= <-]. exists l. auto.
  - destruct (first_secret_key_line lines) as [j |]; [| discriminate].
    intros [= <-]. destruct (IH j eq_refl) as (line & ? & ?). exists line. auto.
Qed.

Lemma first_secret_key_line_le lines j line :
  lines !! j = Some line -> Contains line "Secret Key:" = true ->
  exists i, first_secret_key_line lines = Some i /\ i <= j.
Proof.
  revert j. induction lines as [| l lines IH]; intros j Hj Hc; [discriminate |].
  cbn [first_secret_key_line].
  destruct (Contains l "Secret Key:") eqn:E.
  - exists 0. split; [reflexivity | lia].
  - destruct j as [| j]; [cbn in Hj; congruence |].
    destruct (IH j Hj Hc) as (i & -> & Hi). exists (S i). split; [reflexivity | lia].
Qed.

End KeyFiles.

(** ** What the key-file readers return is trimmed *)
Section Trimmed.
Import strings.

Lemma append_nil (s : string) : String.append EmptyString s = s.
Proof. reflexivity. Qed.

Lemma append_cons (c : ascii) (s t : string) :
  String.append (String c s) t = String c (String.append s t).
Proof. reflexivity. Qed.

Lemma drop_bytes_length n s :
  String.length (drop_bytes n s) = String.length s - n.
Proof.
  revert s. induction n as [| n IH]; intros s; cbn [drop_bytes]; [lia |].
  destruct s as [| c s]; [reflexivity |]. rewrite IH. reflexivity.
Qed.

Lemma drop_bytes_suffix n s :
  exists p, s = String.append p (drop_bytes n s).
Proof.
  revert s. induction n as [| n IH]; intros s; cbn [drop_bytes].
  - by exists EmptyString.
  - destruct s as [| c s]; [by exists EmptyString |].
    destruct (IH s) as [p Hp]. exists (String c p). rewrite append_cons.
    f_equal. exact Hp.
Qed.

Lemma HasPrefix_app a b r :
  HasPrefix a r = true -> HasPrefix (String.append a b) r = true.
Proof.
  revert a. induction r as [| p r IH]; intros a; [by destruct a, b |].
  destruct a as [| c a]; [discriminate |]. rewrite append_cons.
  cbn [HasPrefix]. destruct (Ascii.eqb c p); [apply IH | discriminate].
Qed.

Lemma dropSpace_shorter runes s s' :
  Forall (fun r => r <> EmptyString) runes ->
  dropSpace runes s = Some s' ->
  String.length s' < String.length s.
Proof.
  intros Hrunes. unfold dropSpace. destruct s as [| c s]; [discriminate |].
  destruct (asciiSpace c).
  - intros [= <-]. cbn. lia.
  - destruct (List.find _ runes) as [r |] eqn:E; [| discriminate].
    intros [= <-]. apply List.find_some in E as [Hin _].
    rewrite Forall_forall in Hrunes. specialize (Hrunes r).
    assert (Hr : r <> EmptyString) by (apply Hrunes, list_elem_of_In, Hin).
    rewrite drop_bytes_length. destruct r; [congruence |]. cbn. lia.
Qed.

Lemma dropSpace_suffix runes s s' :
  dropSpace runes s = Some s' -> exists p, s = String.append p s'.
Proof.
  unfold dropSpace. destruct s as [| c s]; [discriminate |].
  destruct (asciiSpace c).
  - intros [= <-]. by exists (String c EmptyString).
  - destruct (List.find _ runes) as [r |]; [| discriminate].
    intros [= <-]. apply drop_bytes_suffix.
Qed.

Lemma dropSpace_prefix runes a b :
  dropSpace runes (String.append a b) = None -> dropSpace runes a = None.
Proof.
  unfold dropSpace. destruct a as [| c a]; [reflexivity |]. rewrite append_cons.
  destruct (asciiSpace c); [discriminate |].
  destruct (List.find (HasPrefix (String c (String.append a b))) runes) eqn:E;
    [discriminate |].
  intros _.
  destruct (List.find (HasPrefix (String c a)) runes) as [r |] eqn:E';
    [| reflexivity].
  apply List.find_some in E' as [Hin Hp].
  pose proof (List.find_none _ _ E r Hin) as Hn.
  apply (HasPrefix_app _ b) in Hp. rewrite append_cons in Hp. congruence.
Qed.

Lemma trimLeft_done fuel runes s :
  Forall (fun r => r <> EmptyString) runes ->
  String.length s <= fuel ->
  dropSpace runes (trimLeft fuel runes s) = None.
Proof.
  intros Hrunes. revert s. induction fuel as [| fuel IH]; intros s Hs.
  - destruct s; [reflexivity | cbn in Hs; lia].
  - cbn [trimLeft]. destruct (dropSpace runes s) as [s' |] eqn:E; [| exact E].
    apply IH. pose proof (dropSpace_shorter runes s s' Hrunes E). lia.
Qed.

Lemma trimLeft_suffix fuel runes s :
  exists p, s = String.append p (trimLeft fuel runes s).
Proof.
  revert s. induction fuel as [| fuel IH]; intros s; cbn [trimLeft].
  - by exists EmptyString.
  - destruct (dropSpace runes s) as [s' |] eqn:E; [| by exists EmptyString].
    destruct (dropSpace_suffix runes s s' E) as [p ->].
    destruct (IH s') as [q Hq]. exists (String.append p q).
    rewrite Hq at 1. clear. induction p as [| c p IHp]; [reflexivity |].
    rewrite !append_cons. by rewrite IHp.
Qed.

Lemma string_of_list_ascii_app l l' :
  string_of_list_ascii (l ++ l') =
  String.append (string_of_list_ascii l) (string_of_list_ascii l').
Proof.
  induction l as [| c l IH]; [reflexivity |].
  cbn [app string_of_list_ascii]. by rewrite append_cons, IH.
Qed.

Lemma list_ascii_of_string_app s s' :
  list_ascii_of_string (String.append s s') =
  list_ascii_of_string s ++ list_ascii_of_string s'.
Proof.
  induction s as [| c s IH]; [reflexivity |].
  rewrite append_cons. cbn [list_ascii_of_string app]. by rewrite IH.
Qed.

Lemma reverse_app s s' :
  reverse (String.append s s') = String.append (reverse s') (reverse s).
Proof.
  unfold reverse.
  by rewrite list_ascii_of_string_app, rev_app_distr, string_of_list_ascii_app.
Qed.

Lemma reverse_involutive s : reverse (reverse s) = s.
Proof.
  unfold reverse.
  by rewrite list_ascii_of_string_of_list_ascii, rev_involutive,
    string_of_list_ascii_of_string.
Qed.

Lemma reverse_length s : String.length (reverse s) = String.length s.
Proof.
  unfold reverse.
  assert (H : forall l, String.length (string_of_list_ascii l) = length l).
  { induction l as [| c l IH]; [reflexivity |]. cbn. by rewrite IH. }
  rewrite H, length_rev, <- H. by rewrite string_of_list_ascii_of_string.
Qed.

Lemma spaceRunes_not_empty :
  Forall (fun r => r <> EmptyString) spaceRunes /\
  Forall (fun r => r <> EmptyString) (map reverse spaceRunes).
Proof.
  split; apply Forall_forall; intros r Hr; apply list_elem_of_In in Hr;
    vm_compute in Hr; intuition (subst; discriminate).
Qed.

(** [TrimSpace] leaves no white-space rune at either end. *)
Lemma TrimSpace_trimmed s :
  leading_space (TrimSpace s) = false /\ trailing_space (TrimSpace s) = false.
Proof.
  destruct spaceRunes_not_empty as [Hl Hr].
  unfold leading_space, trailing_space, TrimSpace, TrimRightSpace.
  set (t := TrimLeftSpace s).
  assert (Ht : dropSpace spaceRunes t = None).
  { apply trimLeft_done; [assumption | lia]. }
  set (u := trimLeft (String.length t) (map reverse spaceRunes) (reverse t)).
  assert (Hu : dropSpace (map reverse spaceRunes) u = None).
  { apply trimLeft_done; [assumption | rewrite reverse_length; lia]. }
  split.
  - destruct (trimLeft_suffix (String.length t) (map reverse spaceRunes) (reverse t))
      as [p Hp].
    fold u in Hp. apply (f_equal reverse) in Hp.
    rewrite reverse_involutive, reverse_app in Hp.
    rewrite Hp in Ht. by rewrite (dropSpace_prefix _ _ _ Ht).
  - by rewrite reverse_involutive, Hu.
Qed.

(** X19. A key returned by [getPrivateKey] or [getVoteKey] neither begins
    nor ends with a white-space rune, whatever the file holds: blanks
    after the label, carriage returns of CR LF line ends and the like never
    reach the node. *)
Theorem keys_are_trimmed (fs : string -> option string) (path key : string) :
  private_key_in fs path = Ok key \/ vote_key_in fs path = Ok key ->
  leading_space key = false /\ trailing_space key = false.
Proof.
  unfold private_key_in, vote_key_in.
  destruct (fs path) as [content |]; [| intros [? | ?]; discriminate].
  rewrite getPrivateKey_loop_first, getVoteKey_loop_first.
  intros [H | H].
  - destruct (first_private_key_line _) as [line |]; [| discriminate].
    injection H as <-. apply TrimSpace_trimmed.
  - destruct (first_secret_key_line _) as [j |]; [| discriminate].
    destruct (_ !! _) as [line |]; [| discriminate].
    injection H as <-. apply TrimSpace_trimmed.
Qed.

Lemma concat_cons sep piece pieces :
  pieces <> [] ->
  String.concat sep (piece :: pieces) =
  String.append piece (String.append sep (String.concat sep pieces)).
Proof. destruct pieces; [congruence | reflexivity]. Qed.

Lemma Split_not_empty s sep : Split s sep <> [].
Proof.
  destruct s as [| c s]; cbn [Split]; [discriminate |].
  destruct (Ascii.eqb c sep); [discriminate |].
  destruct (Split s sep); discriminate.
Qed.

(** X20. The lines the key-file readers loop over are the content of the
    file cut at every newline: joined again with the separator they give
    the content back, and no line contains the separator. *)
Theorem Split_lines (s : string) (sep : ascii) :
  String.concat (String sep EmptyString) (Split s sep) = s /\
  forallb (fun piece => negb (Contains piece (String sep EmptyString)))
          (Split s sep) = true.
Proof.
  induction s as [| c s [IHjoin IHfree]]; [split; reflexivity |].
  cbn [Split]. pose proof (Split_not_empty s sep) as Hne.
  destruct (Ascii.eqb_spec c sep) as [-> | Hc].
  - split.
    + rewrite concat_cons by assumption.
      by rewrite append_nil, append_cons, append_nil, IHjoin.
    + cbn [forallb]. by rewrite IHfree.
  - destruct (Split s sep) as [| piece pieces]; [congruence |]. split.
    + destruct pieces as [| piece' pieces].
      * cbn [String.concat] in IHjoin |- *. by rewrite IHjoin.
      * rewrite concat_cons in IHjoin |- * by discriminate.
        by rewrite append_cons, IHjoin.
    + cbn [forallb] in IHfree |- *.
      apply andb_prop in IHfree as [Hp Hps]. rewrite Hps, andb_true_r.
      cbn [Contains HasPrefix].
      destruct (Ascii.eqb_spec c sep) as [? | _]; [congruence |].
      cbn [orb]. exact Hp.
Qed.

End Trimmed.

(** ** The functions of [strings] against the description of the text *)
Section Text.
Import strings.

Lemma append_nil_r (s : string) : String.append s EmptyString = s.
Proof. induction s as [| c s IH]; [reflexivity |]. by rewrite append_cons, IH. Qed.

Lemma append_assoc (a b c : string) :
  String.append (String.append a b) c = String.append a (String.append b c).
Proof. induction a as [| x a IH]; [reflexivity |]. by rewrite !append_cons, IH. Qed.

Lemma HasPrefix_refl_app (p rest : string) :
  HasPrefix (String.append p rest) p = true.
Proof.
  induction p as [| c p IH]; [by destruct rest |].
  rewrite append_cons. cbn [HasPrefix]. by rewrite Ascii.eqb_refl.
Qed.

Lemma HasPrefix_spec (s p : string) :
  HasPrefix s p = true <-> text.starts_with s p.
Proof.
  split.
  - revert s. induction p as [| c p IH]; intros s H.
    + by exists s.
    + destruct s as [| x s]; [discriminate |]. cbn [HasPrefix] in H.
      destruct (Ascii.eqb_spec x c) as [-> | ?]; [| discriminate].
      destruct (IH s H) as [rest ->]. by exists rest.
  - intros [rest ->]. apply HasPrefix_refl_app.
Qed.

Lemma drop_bytes_app (p rest : string) :
  drop_bytes (String.length p) (String.append p rest) = rest.
Proof. induction p as [| c p IH]; [reflexivity | exact IH]. Qed.

Lemma Contains_spec (s sub : string) :
  Contains s sub = true <-> text.contains s sub.
Proof.
  split.
  - induction s as [| c s IH].
    + cbn [Contains]. rewrite orb_false_r. intros H.
      apply HasPrefix_spec in H as [rest H]. by exists EmptyString, rest.
    + cbn [Contains]. intros H. apply orb_prop in H as [H | H].
      * apply HasPrefix_spec in H as [rest H]. by exists EmptyString, rest.
      * destruct (IH H) as (a & b & ->). by exists (String c a), b.
  - intros (a & b & ->). induction a as [| c a IH].
    + rewrite append_nil. destruct (String.append sub b) eqn:E;
        cbn [Contains]; rewrite <- ?E, HasPrefix_refl_app; reflexivity.
    + rewrite append_cons. cbn [Contains]. by rewrite IH, orb_true_r.
Qed.

Lemma Split_whole (l : string) (sep : ascii) :
  ~ text.contains l (String sep EmptyString) -> Split l sep = [l].
Proof.
  induction l as [| c l IH]; intros H; [reflexivity |].
  cbn [Split]. destruct (Ascii.eqb_spec c sep) as [-> | Hc].
  - destruct H. by exists EmptyString, l.
  - rewrite IH; [reflexivity |].
    intros (a & b & ->). apply H. by exists (String c a), b.
Qed.

Lemma Split_first (l s : string) (sep : ascii) :
  ~ text.contains l (String sep EmptyString) ->
  Split (String.append l (String sep s)) sep = l :: Split s sep.
Proof.
  induction l as [| c l IH]; intros H.
  - rewrite append_nil. cbn [Split]. by rewrite Ascii.eqb_refl.
  - rewrite append_cons. cbn [Split]. destruct (Ascii.eqb_spec c sep) as [-> | Hc].
    + destruct H. by exists EmptyString, l.
    + rewrite IH; [reflexivity |].
      intros (a & b & ->). apply H. by exists (String c a), b.
Qed.

(** The lines of a text are what [Split] returns. *)
Lemma Split_lines_of (content : string) (lines : list string) :
  text.lines_of content lines -> Split content newline = lines.
Proof.
  intros (Hne & <- & Hfree).
  destruct lines as [| l lines]; [congruence |]. clear Hne.
  revert l Hfree. induction lines as [| l' lines IH]; intros l Hfree;
    apply Forall_cons in Hfree as [Hl Hfree].
  - cbn [String.concat]. by apply Split_whole.
  - change (String.concat text.line_feed (l :: l' :: lines))
      with (String.append l
              (String newline (String.concat text.line_feed (l' :: lines)))).
    rewrite Split_first by exact Hl. f_equal. by apply IH.
Qed.

End Text.

Section TrimSpace.
Import strings.

Lemma made_of_app (rune : string -> Prop) (a b : string) :
  text.made_of rune a -> text.made_of rune b ->
  text.made_of rune (String.append a b).
Proof.
  induction 1 as [| r s Hr Hs IH]; intros Hb; [exact Hb |].
  rewrite append_assoc. apply text.made_of_cons; auto.
Qed.

Lemma made_of_reverse (P Q : string -> Prop) (p : string) :
  (forall r, P r -> Q (reverse r)) ->
  text.made_of P p -> text.made_of Q (reverse p).
Proof.
  intros HPQ. induction 1 as [| r s Hr Hs IH]; [apply text.made_of_nil |].
  rewrite reverse_app. apply made_of_app; [exact IH |].
  rewrite <- (append_nil_r (reverse r)).
  apply text.made_of_cons; [auto | apply text.made_of_nil].
Qed.

Lemma asciiSpace_white (c : ascii) :
  asciiSpace c = true <-> In (String c EmptyString) text.white_space.
Proof.
  split.
  - destruct c as [[] [] [] [] [] [] [] []]; vm_compute; intros H;
      first [ discriminate H | tauto ].
  - intros H. vm_compute in H.
    repeat (destruct H as [H | H];
            [first [ discriminate H | injection H as <-; reflexivity ] |]).
    destruct H.
Qed.

Lemma spaceRunes_white (r : string) :
  In r spaceRunes -> In r text.white_space.
Proof.
  intros H. change text.white_space
    with (firstn 6 text.white_space ++ spaceRunes).
  apply in_or_app. by right.
Qed.

Lemma white_space_cases (r : string) :
  In r text.white_space -> space_in spaceRunes r.
Proof.
  change text.white_space with (firstn 6 text.white_space ++ spaceRunes).
  intros H. apply in_app_or in H as [H | H]; [left | by right].
  vm_compute in H.
  repeat (destruct H as [<- | H]; [eexists; split; reflexivity |]).
  destruct H.
Qed.

Lemma space_in_white (r : string) :
  space_in spaceRunes r -> In r text.white_space.
Proof.
  intros [(c & -> & Hc) | H]; [by apply asciiSpace_white | by apply spaceRunes_white].
Qed.

Lemma space_in_reverse (r : string) :
  space_in (map reverse spaceRunes) r -> In (reverse r) text.white_space.
Proof.
  intros [(c & -> & Hc) | H]; [by apply asciiSpace_white |].
  apply in_map_iff in H as (r0 & <- & H0).
  rewrite reverse_involutive. by apply spaceRunes_white.
Qed.

Lemma white_space_reverse (r : string) :
  In r text.white_space -> space_in (map reverse spaceRunes) (reverse r).
Proof.
  intros H. apply white_space_cases in H as [(c & -> & Hc) | H].
  - left. by exists c.
  - right. by apply in_map.
Qed.

Lemma dropSpace_Some (runes : list string) (s s' : string) :
  dropSpace runes s = Some s' ->
  exists r, space_in runes r /\ s = String.append r s'.
Proof.
  unfold dropSpace. destruct s as [| c s]; [discriminate |].
  destruct (asciiSpace c) eqn:Hc.
  - intros [= <-]. exists (String c EmptyString). split; [| reflexivity].
    left. by exists c.
  - destruct (List.find _ runes) as [r |] eqn:E; [| discriminate].
    intros [= <-]. apply List.find_some in E as [Hin Hp].
    apply HasPrefix_spec in Hp as [rest Hrest]. exists r. split; [by right |].
    rewrite Hrest at 1. by rewrite Hrest, drop_bytes_app.
Qed.

Lemma dropSpace_None (runes : list string) (k : string) :
  Forall (fun r => r <> EmptyString) runes ->
  dropSpace runes k = None ->
  forall r rest, space_in runes r -> k <> String.append r rest.
Proof.
  intros Hrunes Hk r rest Hr ->. unfold dropSpace in Hk.
  destruct Hr as [(c & -> & Hc) | Hin].
  - rewrite append_cons in Hk. by rewrite Hc in Hk.
  - rewrite Forall_forall in Hrunes.
    assert (Hne : r <> EmptyString) by (apply Hrunes, list_elem_of_In, Hin).
    destruct r as [| c r]; [congruence |]. rewrite append_cons in Hk.
    destruct (asciiSpace c); [discriminate |].
    destruct (List.find _ runes) eqn:E; [discriminate |].
    pose proof (List.find_none _ _ E _ Hin) as Hn.
    rewrite <- append_cons, HasPrefix_refl_app in Hn. discriminate.
Qed.

Lemma trimLeft_made_of (fuel : nat) (runes : list string) (s : string) :
  exists p, s = String.append p (trimLeft fuel runes s) /\
            text.made_of (space_in runes) p.
Proof.
  revert s. induction fuel as [| fuel IH]; intros s; cbn [trimLeft].
  - exists EmptyString. split; [reflexivity | apply text.made_of_nil].
  - destruct (dropSpace runes s) as [s' |] eqn:E.
    + destruct (dropSpace_Some runes s s' E) as (r & Hr & ->).
      destruct (IH s') as (q & Hq & Hmade). exists (String.append r q). split.
      * rewrite append_assoc. by rewrite <- Hq.
      * by apply text.made_of_cons.
    + exists EmptyString. split; [reflexivity | apply text.made_of_nil].
Qed.

Lemma made_of_impl (P Q : string -> Prop) (s : string) :
  (forall r, P r -> Q r) -> text.made_of P s -> text.made_of Q s.
Proof. intros H. induction 1; [apply text.made_of_nil | apply text.made_of_cons; auto]. Qed.

(** [TrimSpace] returns its argument without the white space at its ends. *)
Lemma TrimSpace_spec (s : string) : text.trimmed s (TrimSpace s).
Proof.
  destruct spaceRunes_not_empty as [Hl Hr].
  unfold TrimSpace, TrimRightSpace, TrimLeftSpace.
  destruct (trimLeft_made_of (String.length s) spaceRunes s) as (pre & Hs & Hpre).
  set (t := trimLeft (String.length s) spaceRunes s) in *.
  assert (Ht : dropSpace spaceRunes t = None).
  { apply trimLeft_done; [assumption | lia]. }
  destruct (trimLeft_made_of (String.length t) (map reverse spaceRunes) (reverse t))
    as (q & Hq & Hpost).
  set (u := trimLeft (String.length t) (map reverse spaceRunes) (reverse t)) in *.
  assert (Hu : dropSpace (map reverse spaceRunes) u = None).
  { apply trimLeft_done; [assumption | rewrite reverse_length; lia]. }
  apply (f_equal reverse) in Hq. rewrite reverse_involutive, reverse_app in Hq.
  exists pre, (reverse q). split; [by rewrite <- Hq |].
  split; [exact (made_of_impl _ _ _ space_in_white Hpre) |].
  split; [exact (made_of_reverse _ _ _ space_in_reverse Hpost) |].
  split.
  - intros r rest Hin.
    apply (dropSpace_None spaceRunes); [assumption | | by apply white_space_cases].
    rewrite Hq in Ht. exact (dropSpace_prefix _ _ _ Ht).
  - intros r rest Hin Hkey. apply (f_equal reverse) in Hkey.
    rewrite reverse_involutive, reverse_app in Hkey.
    exact (dropSpace_None _ _ Hr Hu _ _ (white_space_reverse r Hin) Hkey).
Qed.

End TrimSpace.

(** ** Searching the lines *)
Section Lines.

Lemma find_first {A} (P : A -> bool) (pre : list A) (x : A) (post : list A) :
  Forall (fun y => P y = false) pre -> P x = true ->
  List.find P (pre ++ x :: post) = Some x.
Proof.
  intros Hpre Hx. induction Hpre as [| y pre Hy _ IH]; cbn [app List.find].
  - by rewrite Hx.
  - by rewrite Hy.
Qed.

Lemma find_nowhere {A} (P : A -> bool) (l : list A) :
  Forall (fun y => P y = false) l -> List.find P l = None.
Proof.
  induction 1 as [| y l Hy _ IH]; [reflexivity |].
  cbn [List.find]. by rewrite Hy.
Qed.

Lemma not_contains (l sub : string) :
  strings.Contains l sub = false -> ~ text.contains l sub.
Proof. intros H Hc. apply Contains_spec in Hc. congruence. Qed.

Lemma not_starts (l label : string) :
  strings.HasPrefix l label = false -> ~ text.starts_with l label.
Proof. intros H Hc. apply HasPrefix_spec in Hc. congruence. Qed.

Lemma not_starts_with (l label : string) :
  ~ text.starts_with l label -> strings.HasPrefix l label = false.
Proof.
  intros H. destruct (strings.HasPrefix l label) eqn:E; [| reflexivity].
  destruct H. by apply HasPrefix_spec.
Qed.

End Lines.

(** ** Symbolic execution *)

Lemma getPrivateKey_run {N} filePath (w : World N) :
  getPrivateKey filePath w =
  Returned (private_key_in (files w) filePath)
           (after w (node w) (metrics w) [EvReadFile filePath]).
Proof.
  unfold getPrivateKey, private_key_in, ReadFile, gets, mbind, M_bind, mret, M_ret.
  cbn. by destruct (files w filePath).
Qed.

Lemma getVoteKey_run {N} filePath (w : World N) :
  getVoteKey filePath w =
  Returned (vote_key_in (files w) filePath)
           (after w (node w) (metrics w) [EvReadFile filePath]).
Proof.
  unfold getVoteKey, vote_key_in, ReadFile, gets, mbind, M_bind, mret, M_ret.
  cbn. by destruct (files w filePath).
Qed.

Lemma invoked_cons p e evs :
  invoked p (e :: evs) = enters p e || invoked p evs.
Proof. reflexivity. Qed.

Lemma invoked_app p evs evs' :
  invoked p (evs ++ evs') = invoked p evs || invoked p evs'.
Proof. apply existsb_app. Qed.

(** The proofs start from a world given by its components. *)
Ltac open_world w :=
  let n := fresh "n0" in
  let fs := fresh "fs" in
  let url := fresh "url" in
  let net := fresh "net" in
  let m := fresh "m0" in
  let t := fresh "t0" in
  destruct w as [n fs url net m t];
  cbv beta iota delta [node files faucetURL network metrics trace] in *.

(** Unfold the monad and the primitive effects, then bring the trace into
    the form [t0 ++ [e1; ...; ek]]. *)
Ltac run :=
  repeat
    (progress
       (cbv beta iota zeta delta
          [mbind M_bind mret M_ret emit query exchange gauge_Set gauge_Inc
           modify_metrics gets Sleep PostForm deref after negb
           node files faucetURL network metrics trace];
        rewrite ?getPrivateKey_run, ?getVoteKey_run));
  rewrite <- ?app_assoc; cbn [app].

(** Case analysis on the next answer of the node. *)
Ltac answer :=
  let r := fresh "r" in
  (match goal with
   | |- context [?ans ?st] =>
       is_var st;
       match type of (ans st) with (_ * result _)%type => idtac end;
       destruct (ans st) as [? r] eqn:?
   end);
  destruct r; run.

(** Case analysis on the next key file. *)
Ltac key_file :=
  match goal with
  | |- context [private_key_in ?fs ?p] => destruct (private_key_in fs p) eqn:?
  | |- context [vote_key_in ?fs ?p] => destruct (vote_key_in fs p) eqn:?
  end; run.

(** Witnesses for the keys of [activate_steps]: the ones already resolved. *)
Ltac known_keys :=
  first [ match goal with
          | H : private_key_in _ "/keys/signing_key.txt" = Ok ?k |- _ => exists k
          end | exists EmptyString ];
  first [ match goal with
          | H : vote_key_in _ "/keys/vote_key.txt" = Ok ?k |- _ => exists k
          end | exists EmptyString ];
  first [ match goal with
          | H : private_key_in _ "/keys/address.txt" = Ok ?k |- _ => exists k
          end | exists EmptyString ];
  first [ match goal with
          | H : ans_sendNewValidatorTransaction _ _ _ _ _ _ _ _ _ _ = (_, Ok ?k) |- _ =>
              exists k
          end | exists EmptyString ].

(** A leaf of [activateValidator] at which a step has failed. *)
Ltac failed_step :=
  eexists false, _, _, _; split; [reflexivity |]; right;
  split; [reflexivity |]; split;
  [ unfold all_steps_succeed;
    cbv beta iota delta [node files faucetURL network metrics trace];
    intros ? ? ? ? ? (? & ? & ? & ? & ? & ? & ? & ? & ? & ? & ? & ? & ?); congruence
  | split; [reflexivity | known_keys; eexists; reflexivity] ].

(** Split [invoked] over a trace and use what is known of its parts. *)
Ltac trace_facts :=
  repeat first [ rewrite invoked_cons | rewrite invoked_app ];
  repeat match goal with
         | H : invoked _ _ = _ |- _ => rewrite H
         end;
  cbn [invoked existsb enters Proc_eqb orb];
  rewrite ?orb_false_r, ?orb_true_r; cbn [orb]; try tauto.

(** Looking a gauge up under the writes that came after it. *)
Ltac find_written :=
  repeat first [ apply lookup_insert_eq
               | rewrite lookup_insert_ne by discriminate ].

(** Writing the same values a second time leaves a registry as it is. *)
Ltac same_registry :=
  match goal with
  | |- _ = ?m1 =>
      let m := fresh "m" in
      set (m := m1);
      repeat match goal with
             | |- context [<[?k := ?v]> m] =>
                 rewrite (insert_id m k v) by (unfold m; find_written)
             end;
      reflexivity
  end.

(** ** The procedures called by the lifecycle check always return *)
Section Procedures.
Context {N : Type} (client : Client N).
Implicit Types (w : World N) (address : string).

Lemma activateValidator_returns address w :
  exists b n m evs,
    activateValidator client address w =
    Returned b (after w n m (EvEnter Activate :: evs)).
Proof.
  open_world w.
  unfold activateValidator, rpc.ImportRawKey, rpc.UnlockAccount,
    rpc.SendNewValidatorTransaction, rpc.SendRawTransaction.
  run.
  do 3 (key_file; [| eexists _, _, _, _; reflexivity]).
  answer; [| eexists _, _, _, _; reflexivity].
  destruct (String.eqb _ ""); run; [eexists _, _, _, _; reflexivity |].
  answer; [| eexists _, _, _, _; reflexivity].
  match goal with b : bool |- _ => destruct b end; run;
    [| eexists _, _, _, _; reflexivity].
  answer; [| eexists _, _, _, _; reflexivity].
  answer; eexists _, _, _, _; reflexivity.
Qed.

Lemma reActivateValidator_returns address w :
  exists b n m evs,
    reActivateValidator client address w =
    Returned b (after w n m (EvEnter Reactivate :: evs)) /\
    invoked Activate evs = false /\
    (m = metrics w \/
     exists v, m = <[(prometheus.ValidatorReActivatedCounterGauge, address) := v]>
                     (metrics w)).
Proof.
  open_world w.
  unfold reActivateValidator, rpc.ImportRawKey, rpc.UnlockAccount,
    rpc.SendReactivateValidatorTransaction.
  run.
  do 2 (key_file; [| eexists _, _, _, _; split; [reflexivity | by auto]]).
  answer; [| eexists _, _, _, _; split; [reflexivity | by auto]].
  destruct (String.eqb _ ""); run;
    [eexists _, _, _, _; split; [reflexivity | by auto] |].
  answer; [| eexists _, _, _, _; split; [reflexivity | by auto]].
  match goal with b : bool |- _ => destruct b end; run;
    [| eexists _, _, _, _; split; [reflexivity | by auto]].
  answer; eexists _, _, _, _; (split; [reflexivity |]); split; eauto.
Qed.

Lemma checkSufficientBalance_returns address w :
  exists b v n m evs,
    checkSufficientBalance client address w = Returned (b, v) (after w n m evs) /\
    forall p, invoked p evs = false.
Proof.
  open_world w. unfold checkSufficientBalance, rpc.GetAccountBalanceByAddress.
  run. answer; eexists _, _, _, _, _; split; reflexivity.
Qed.

Lemma updateEpochNumberGauge_returns w :
  exists n m evs,
    updateEpochNumberGauge client w = Returned tt (after w n m evs) /\
    node (after w n m evs) = (ans_getEpochNumber client (node w)).1 /\
    forall p, invoked p evs = false.
Proof.
  open_world w. unfold updateEpochNumberGauge, rpc.GetEpochNumber.
  run. answer; eexists _, _, _; (split; [reflexivity |]);
    split; reflexivity.
Qed.

End Procedures.

(** Replace a call of a procedure by what it returns. *)
Ltac sub_procedure :=
  match goal with
  | |- context [activateValidator ?c ?a ?w] =>
      let E := fresh "E" in
      destruct (activateValidator_returns c a w) as (? & ? & ? & ? & E);
      rewrite E; clear E
  | |- context [reActivateValidator ?c ?a ?w] =>
      let E := fresh "E" in
      destruct (reActivateValidator_returns c a w) as (? & ? & ? & ? & E & ? & ?);
      rewrite E; clear E
  | |- context [checkSufficientBalance ?c ?a ?w] =>
      let E := fresh "E" in
      destruct (checkSufficientBalance_returns c a w) as (? & ? & ? & ? & ? & E & ?);
      rewrite E; clear E
  end; run.

Ltac evaluate :=
  unfold checkAndHandleValidatorStatus, rpc.GetValidatorByAddress,
    rpc.GetCurrentBlockNumber, updateValidatorMetrics;
  run.

(** ** The properties of the specification *)
Section Claims.
Context {N : Type} (client : Client N).
Implicit Types (w : World N) (address : string) (d : ValidatorDetails).
Import prometheus.

(** With a jail marker on a record that is not retired, the last writes of
    the evaluation put both jail gauges back to 0, whatever the distance to
    the current block, and the evaluation returns true. *)
Lemma jail_marker_overwritten address w n1 d jailedFrom n2 currentBlockNumber :
  ans_getValidatorByAddress client address (node w) = (n1, Ok (Some d)) ->
  Retired d = false ->
  JailedFrom d = Some jailedFrom ->
  ans_getBlockNumber client n1 = (n2, Ok currentBlockNumber) ->
  exists m evs,
    checkAndHandleValidatorStatus client address w = Returned true (after w n2 m evs) /\
    m !! (ValidatorJailedGauge, address) = Some 0%Q /\
    m !! (ValidatorJailedFromGauge, address) = Some 0%Q /\
    invoked Activate evs = false /\ invoked Reactivate evs = false.
Proof.
  intros Hfetch Hretired Hjail Hblock. open_world w.
  evaluate. rewrite Hfetch. run. rewrite Hretired, Hjail. run. rewrite Hblock. run.
  destruct (wrap64 _ <? blocksForReactivation)%Z; run;
    (eexists _, _; split; [reflexivity |]; split; [| split; [| by auto]]);
    first [ apply lookup_insert_eq
          | rewrite lookup_insert_ne by discriminate; apply lookup_insert_eq ].
Qed.

(** A tick of the main loop enters Activate whenever the record fetch
    fails; the balance is read only afterwards. *)
Lemma main_tick_activates validatorAddress w n1 e :
  ans_getValidatorByAddress client validatorAddress
    (ans_getEpochNumber client (node w)).1 = (n1, Err e) ->
  exists n m evs,
    main_tick client validatorAddress w = Returned false (after w n m evs) /\
    invoked Activate evs = true.
Proof.
  intros Hfetch. unfold main_tick.
  destruct (updateEpochNumberGauge_returns client w)
    as (n & m & evs & E & Hnode & Hevs).
  cbv beta iota delta [mbind M_bind]. rewrite E. clear E.
  cbn [node after] in Hnode. subst n.
  open_world w. evaluate. rewrite Hfetch. run.
  sub_procedure. sub_procedure.
  eexists _, _, _. split; [reflexivity |].
  pose proof (Hevs Activate). trace_facts.
Qed.

(** An iteration of the balance-accumulation loop with no record and a
    balance below the threshold does not enter Activate. *)
Lemma periodicUpdates_tick_waits address w n1 balance n2 e :
  ans_getAccountByAddress client address (node w) = (n1, Ok balance) ->
  (balance < 10000000000)%Z ->
  ans_getValidatorByAddress client address n1 = (n2, Err e) ->
  exists n m evs,
    periodicUpdates_tick client address w = Returned false (after w n m evs) /\
    invoked Activate evs = false.
Proof.
  intros Hbalance Hlow Hfetch. open_world w.
  unfold periodicUpdates_tick, checkSufficientBalance, checkActive, fundAddress,
    rpc.GetAccountBalanceByAddress, rpc.GetValidatorByAddress.
  run. rewrite Hbalance. run.
  rewrite Float64_facts.balance_threshold.
  destruct (Z.leb_spec 10000000000 balance); [lia |].
  rewrite Hfetch. run. cbn [orb]. run.
  destruct (String.eqb net "testnet"); run;
    [answer; [destruct (_ =? 200)%Z; run |] |];
    eexists _, _, _; split; reflexivity.
Qed.

(** C3. The consensus gate returns true exactly when three checks in a row
    return true without error, and it sends no check after the first one
    that returns an error or false. *)
Theorem checkConsensus_all_three w :
  let answers := consensus_answers client 3 (node w) in
  exists n evs,
    checkConsensus client w =
      Returned (forallb established answers) (after w n (metrics w) evs) /\
    checks_sent evs = checks_needed answers.
Proof.
  open_world w.
  unfold checkConsensus.
  change (seqZ 1 maxAttempts) with [1; 2; 3]%Z.
  cbn [checkConsensus_loop consensus_answers].
  change (1 <? maxAttempts)%Z with true.
  change (2 <? maxAttempts)%Z with true.
  change (3 <? maxAttempts)%Z with false.
  unfold rpc.IsConsensusEstablished. run.
  destruct (ans_isConsensusEstablished client n0) as [n1 [[|] | e1]];
    run; [| eexists _, _; split; reflexivity ..].
  destruct (ans_isConsensusEstablished client n1) as [n2 [[|] | e2]];
    run; [| eexists _, _; split; reflexivity ..].
  destruct (ans_isConsensusEstablished client n2) as [n3 [[|] | e3]];
    run; eexists _, _; split; reflexivity.
Qed.

(** C4. When the fetched record has the retired flag set, with or without a
    jail marker, the lifecycle check enters Reactivate and does not enter
    Activate. *)
Theorem retired_reactivates address w n1 d :
  ans_getValidatorByAddress client address (node w) = (n1, Ok (Some d)) ->
  Retired d = true ->
  exists n m evs,
    checkAndHandleValidatorStatus client address w = Returned false (after w n m evs) /\
    invoked Reactivate evs = true /\
    invoked Activate evs = false.
Proof.
  intros Hfetch Hretired. open_world w.
  evaluate. rewrite Hfetch. run. rewrite Hretired. run.
  sub_procedure.
  eexists _, _, _. split; [reflexivity |]. trace_facts.
Qed.

(** C5. Activate reads the signing key, the voting key and the account key,
    imports the account key, unlocks the account with duration 0, builds the
    new-validator transaction and submits it, in this order.  It returns
    true exactly when every step succeeds, and then it has set the activated
    gauge to 1 and incremented the activation counter; otherwise it returns
    false, has stopped at the failing step, and the registry is unchanged. *)
Theorem activateValidator_steps address w :
  exists b n m evs,
    activateValidator client address w = Returned b (after w n m evs) /\
    ((b = true /\
      exists sigKey voteKey addressPrivate rawTx,
        all_steps_succeed client address w sigKey voteKey addressPrivate rawTx n /\
        evs = activate_steps address sigKey voteKey addressPrivate rawTx ++
              [EvSet ValidatorActivatedGauge address 1%Q;
               EvInc ValidatorActivatedCounterGauge address] /\
        m = <[(ValidatorActivatedCounterGauge, address) :=
                Float64.add
                  (default 0%Q (metrics w !! (ValidatorActivatedCounterGauge, address)))
                  1%Q]>
              (<[(ValidatorActivatedGauge, address) := 1%Q]> (metrics w)))
     \/
     (b = false /\
      (forall sigKey voteKey addressPrivate rawTx n',
          ~ all_steps_succeed client address w sigKey voteKey addressPrivate rawTx n') /\
      m = metrics w /\
      exists sigKey voteKey addressPrivate rawTx,
        evs `prefix_of` activate_steps address sigKey voteKey addressPrivate rawTx)).
Proof.
  open_world w.
  unfold activateValidator, rpc.ImportRawKey, rpc.UnlockAccount,
    rpc.SendNewValidatorTransaction, rpc.SendRawTransaction.
  run.
  do 3 (key_file; [| failed_step]).
  answer; [| failed_step].
  match goal with |- context [String.eqb ?s ""] => destruct (String.eqb_spec s "") end;
    run; [failed_step |].
  answer; [| failed_step].
  match goal with b : bool |- _ => destruct b end; run; [| failed_step].
  answer; [| failed_step].
  answer; [| failed_step].
  eexists true, _, _, _. split; [reflexivity |]. left. split; [reflexivity |].
  known_keys. split; [| split; [reflexivity |]].
  - unfold all_steps_succeed.
    cbv beta iota delta [node files faucetURL network metrics trace].
    repeat split; try assumption. eauto 10.
  - rewrite lookup_insert_ne by discriminate. reflexivity.
Qed.

(** C6. When the balance fetch succeeds, the balance check writes the raw
    balance, converted to float64, to the balance gauge, and returns the
    quotient of that value by 100000 together with a boolean that is true
    exactly when the raw balance is at least 10,000,000,000. *)
Theorem checkSufficientBalance_threshold address w n1 balance :
  ans_getAccountByAddress client address (node w) = (n1, Ok balance) ->
  checkSufficientBalance client address w =
  Returned ((10000000000 <=? balance)%Z,
            Float64.div (Float64.of_Z balance) 100000%Q)
           (after w n1
              (<[(ValidatorBalanceGauge, address) := Float64.of_Z balance]> (metrics w))
              [EvRpc (getAccountByAddress address);
               EvSet ValidatorBalanceGauge address (Float64.of_Z balance)]).
Proof.
  intros Hbalance. open_world w.
  unfold checkSufficientBalance, rpc.GetAccountBalanceByAddress.
  run. rewrite Hbalance. run.
  rewrite Float64_facts.balance_threshold. reflexivity.
Qed.

(** C7. [getPrivateKey] returns the remainder of the first line that starts
    with "Private Key:" without the white space at its two ends, and
    [getVoteKey] returns, without the white space at its two ends, the line
    two lines after the first line containing "Secret Key:".  Each returns
    an error when the file cannot be read; [getPrivateKey] when no line
    starts with the label; [getVoteKey] when no line containing the label
    has two lines after it.  Lines, prefixes and white space are those of
    the text itself. *)
Theorem key_file_readers filePath w :
  exists privateKey voteKey,
    getPrivateKey filePath w =
      Returned privateKey (after w (node w) (metrics w) [EvReadFile filePath]) /\
    getVoteKey filePath w =
      Returned voteKey (after w (node w) (metrics w) [EvReadFile filePath]) /\
    match files w filePath with
    | None => is_Ok privateKey = false /\ is_Ok voteKey = false
    | Some content =>
        forall lines, text.lines_of content lines ->
          (forall pre line post rest,
              lines = pre ++ line :: post ->
              Forall (fun l => ~ text.starts_with l "Private Key:") pre ->
              line = String.append "Private Key:" rest ->
              exists key, privateKey = Ok key /\ text.trimmed rest key) /\
          (Forall (fun l => ~ text.starts_with l "Private Key:") lines ->
           is_Ok privateKey = false) /\
          (forall i line target,
              lines !! i = Some line ->
              text.contains line "Secret Key:" ->
              (forall j l, j < i -> lines !! j = Some l ->
                           ~ text.contains l "Secret Key:") ->
              lines !! (i + 2) = Some target ->
              exists key, voteKey = Ok key /\ text.trimmed target key) /\
          ((forall i line,
               lines !! i = Some line -> text.contains line "Secret Key:" ->
               length lines <= i + 2) ->
           is_Ok voteKey = false)
    end.
Proof.
  eexists _, _. split; [apply getPrivateKey_run |].
  split; [apply getVoteKey_run |].
  unfold private_key_in, vote_key_in.
  destruct (files w filePath) as [content |]; [| split; reflexivity].
  intros lines Hlines. cbv zeta.
  rewrite (Split_lines_of content lines Hlines).
  rewrite getPrivateKey_loop_first, getVoteKey_loop_first.
  unfold first_private_key_line. repeat split.
  - intros pre line post rest -> Hpre ->.
    rewrite find_first.
    + exists (strings.TrimSpace rest). split; [| apply TrimSpace_spec].
      unfold after_label. by rewrite drop_bytes_app.
    + eapply Forall_impl; [exact Hpre |]. intros l. apply not_starts_with.
    + apply HasPrefix_refl_app.
  - intros Hnone. rewrite find_nowhere; [reflexivity |].
    eapply Forall_impl; [exact Hnone |]. intros l. apply not_starts_with.
  - intros i line target Hi Hlabel Hfirst Htarget.
    apply Contains_spec in Hlabel.
    destruct (first_secret_key_line_le lines i line Hi Hlabel) as (i' & E & Hle).
    rewrite E. destruct (first_secret_key_line_Some lines i' E) as (l' & Hl' & Hc').
    assert (i' = i) as ->.
    { destruct (Nat.eq_dec i' i) as [? | Hne]; [assumption | exfalso].
      apply (Hfirst i' l'); [lia | assumption | by apply Contains_spec]. }
    cbn [Nat.add]. rewrite Htarget.
    exists (strings.TrimSpace target). split; [reflexivity | apply TrimSpace_spec].
  - intros Hshort.
    destruct (first_secret_key_line lines) as [i |] eqn:E; [| reflexivity].
    destruct (first_secret_key_line_Some lines i E) as (l & Hl & Hc).
    apply Contains_spec in Hc. pose proof (Hshort i l Hl Hc) as Hlen.
    cbn [Nat.add]. rewrite (lookup_ge_None_2 lines (i + 2)) by lia. reflexivity.
Qed.

(** C8. When two evaluations in a row find the same record, not retired
    and without jail marker, and the block number query succeeds in both
    or fails in both, the second evaluation returns what the first
    returned, leaves the registry as the first left it, produces the same
    events, gauge writes included, and neither of them enters Activate or
    Reactivate. *)
Theorem active_evaluation_idempotent address w d n1 n2 rb n3 n4 rb' :
  ans_getValidatorByAddress client address (node w) = (n1, Ok (Some d)) ->
  Retired d = false ->
  JailedFrom d = None ->
  ans_getBlockNumber client n1 = (n2, rb) ->
  ans_getValidatorByAddress client address n2 = (n3, Ok (Some d)) ->
  ans_getBlockNumber client n3 = (n4, rb') ->
  is_Ok rb' = is_Ok rb ->
  exists b m evs,
    checkAndHandleValidatorStatus client address w = Returned b (after w n2 m evs) /\
    checkAndHandleValidatorStatus client address (after w n2 m evs) =
      Returned b (after (after w n2 m evs) n4 m evs) /\
    invoked Activate evs = false /\
    invoked Reactivate evs = false.
Proof.
  intros Hfetch Hretired Hjail Hblock Hfetch' Hblock' Hsame. open_world w.
  evaluate. rewrite Hfetch. run. rewrite Hretired, Hjail. run. rewrite Hblock. run.
  destruct rb as [currentBlockNumber | e], rb' as [currentBlockNumber' | e'];
    try discriminate; run;
    (eexists _, _, _; split; [reflexivity |]; split; [| by auto]);
    evaluate; rewrite Hfetch'; run; rewrite Hretired, Hjail; run;
    rewrite Hblock'; run;
    do 2 f_equal; same_registry.
Qed.

(** C9. Whenever the record fetch yields a record, the evaluation writes 1
    to the activated gauge and leaves it at 1, whatever the retired flag and
    the jail marker of the record. *)
Theorem activated_gauge_whenever_fetched address w n1 d :
  ans_getValidatorByAddress client address (node w) = (n1, Ok (Some d)) ->
  exists b n m evs,
    checkAndHandleValidatorStatus client address w = Returned b (after w n m evs) /\
    m !! (ValidatorActivatedGauge, address) = Some 1%Q /\
    In (EvSet ValidatorActivatedGauge address 1%Q) evs.
Proof.
  intros Hfetch. open_world w.
  evaluate. rewrite Hfetch. run.
  destruct (Retired d); run.
  - sub_procedure.
    eexists _, _, _, _. split; [reflexivity |]. split; [| cbn; tauto].
    match goal with H : _ \/ _ |- _ => destruct H as [-> | [v ->]] end.
    + apply lookup_insert_eq.
    + rewrite lookup_insert_ne by discriminate. apply lookup_insert_eq.
  - answer.
    + destruct (JailedFrom d) as [jailedFrom |]; run;
        [destruct (wrap64 _ <? blocksForReactivation)%Z; run |];
        (eexists _, _, _, _; split; [reflexivity |]; split; [| cbn; tauto]);
        rewrite !lookup_insert_ne by discriminate; apply lookup_insert_eq.
    + eexists _, _, _, _. split; [reflexivity |]. split; [| cbn; tauto].
      apply lookup_insert_eq.
Qed.

(** C10. Unless the fetch yields a null record (which is dereferenced), the
    lifecycle check returns false when the record fetch fails, when the
    record is retired, or when the block number query fails, and true
    otherwise, a jail marker within the window included; what Activate or
    Reactivate returned does not enter the result. *)
Theorem lifecycle_result address w n1 r :
  ans_getValidatorByAddress client address (node w) = (n1, r) ->
  null_record r = false ->
  exists n m evs,
    checkAndHandleValidatorStatus client address w =
    Returned (negb (fetch_failed r || retired_flag r || block_query_failed client n1))
             (after w n m evs).
Proof.
  intros Hfetch Hrecord. open_world w.
  unfold block_query_failed.
  evaluate. rewrite Hfetch. run.
  destruct r as [[d |] | e]; [| discriminate |]; run;
    cbn [fetch_failed retired_flag orb].
  - destruct (Retired d); run; cbn [orb negb].
    + sub_procedure. eexists _, _, _. reflexivity.
    + answer; cbn [is_Ok negb snd].
      * destruct (JailedFrom d) as [jailedFrom |]; run;
          [destruct (wrap64 _ <? blocksForReactivation)%Z; run |];
          eexists _, _, _; reflexivity.
      * eexists _, _, _. reflexivity.
  - sub_procedure. eexists _, _, _. reflexivity.
Qed.

End Claims.

(** ** Concrete runs *)
Section Runs.
Import prometheus.

Example key_files_resolve :
  private_key_in key_files "/keys/signing_key.txt" = Ok "5a6b7c" /\
  vote_key_in key_files "/keys/vote_key.txt" = Ok "cc33" /\
  private_key_in key_files "/keys/address.txt" = Ok "0d0e0f" /\
  private_key_in key_files "/keys/vote_key.txt" = Err "private key not found in file" /\
  vote_key_in key_files "/keys/address.txt" = Err "vote key not found in file" /\
  is_Ok (private_key_in no_files "/keys/address.txt") = false.
Proof. vm_compute. repeat split; reflexivity. Qed.

(** A label on the last but one line has only one line after it. *)
Example vote_key_needs_two_lines :
  getVoteKey_loop ["# Secret Key:"; "cc33"] 0 ["# Secret Key:"; "cc33"] =
    Err "vote key not found in file" /\
  getVoteKey_loop ["# Secret Key:"; ""; "cc33"] 0 ["# Secret Key:"; ""; "cc33"] =
    Ok "cc33".
Proof. vm_compute. split; reflexivity. Qed.

Example consensus_lost_at_second_check :
  match checkConsensus
          (scripted (mkScript [Ok true; Ok false; Ok true] (Err "") (Err "") (Err "")))
          (world0 no_files) with
  | Returned b w' =>
      b = false /\
      trace w' = [EvRpc isConsensusEstablished; EvSleep 5; EvRpc isConsensusEstablished]
  | Panicked => False
  end.
Proof. vm_compute. split; reflexivity. Qed.

Example consensus_stable :
  match checkConsensus active_node (world0 no_files) with
  | Returned b w' =>
      b = true /\
      trace w' = [EvRpc isConsensusEstablished; EvSleep 5;
                  EvRpc isConsensusEstablished; EvSleep 5;
                  EvRpc isConsensusEstablished]
  | Panicked => False
  end.
Proof. vm_compute. split; reflexivity. Qed.

(** C1. Record not retired, jailed from block 100, current block 5000: the
    evaluation writes 1 and 100 to the jail gauges and then, before it
    returns, 0 and 0; the registry ends with jailed = 0 and jailed-from = 0. *)
Theorem jailed_gauges_reset_at_block_5000 :
  (wrap64 (5000 - 100) <? blocksForReactivation)%Z = true /\
  match checkAndHandleValidatorStatus jailed_node addr0 (world0 key_files) with
  | Returned b w' =>
      b = true /\
      metrics w' !! (ValidatorJailedGauge, addr0) = Some 0%Q /\
      metrics w' !! (ValidatorJailedFromGauge, addr0) = Some 0%Q /\
      published (trace w') =
        [ EvSet NimiqTotalStakeGauge addr0 10000000000%Q;
          EvSet ValidatorNumStakersGauge addr0 0%Q;
          EvSet ValidatorInactivityFlagGauge addr0 0%Q;
          EvSet ValidatorRetiredGauge addr0 0%Q;
          EvSet ValidatorJailedFromGauge addr0 100%Q;
          EvSet ValidatorActivatedGauge addr0 1%Q;
          EvSet ValidatorJailedGauge addr0 1%Q;
          EvSet ValidatorJailedFromGauge addr0 100%Q;
          EvSet ValidatorJailedGauge addr0 0%Q;
          EvSet ValidatorJailedFromGauge addr0 0%Q ] /\
      invoked Activate (trace w') = false /\
      invoked Reactivate (trace w') = false
  | Panicked => False
  end.
Proof. vm_compute. repeat split; reflexivity. Qed.

(** C2. No validator record and 40,000 NIM on the account: the balance
    check says insufficient, an iteration of the balance-accumulation loop
    asks the faucet and leaves Activate alone, but a tick of the main loop
    enters Activate, submits the transaction and counts an activation. *)
Theorem main_tick_activates_underfunded :
  match checkSufficientBalance unregistered_node addr0 (world0 key_files) with
  | Returned (sufficient, _) _ => sufficient = false
  | Panicked => False
  end /\
  match periodicUpdates_tick unregistered_node addr0 (world0 key_files) with
  | Returned exit w' =>
      exit = false /\
      invoked Activate (trace w') = false /\
      invoked Fund (trace w') = true
  | Panicked => False
  end /\
  match main_tick unregistered_node addr0 (world0 key_files) with
  | Returned state w' =>
      state = false /\
      invoked Activate (trace w') = true /\
      metrics w' !! (ValidatorActivatedGauge, addr0) = Some 1%Q /\
      metrics w' !! (ValidatorActivatedCounterGauge, addr0) = Some 1%Q
  | Panicked => False
  end.
Proof. vm_compute. repeat split; reflexivity. Qed.

Lemma retired_reactivates_witness :
  ans_getValidatorByAddress retired_node addr0 (node (world0 key_files)) =
    (1, Ok (Some (record0 true (Some 100%Z)))) /\
  Retired (record0 true (Some 100%Z)) = true /\
  exists n m evs,
    checkAndHandleValidatorStatus retired_node addr0 (world0 key_files) =
      Returned false (after (world0 key_files) n m evs) /\
    invoked Reactivate evs = true /\
    invoked Activate evs = false.
Proof.
  split; [reflexivity |]. split; [reflexivity |].
  apply (retired_reactivates retired_node addr0 (world0 key_files) 1
           (record0 true (Some 100%Z))); reflexivity.
Defined.

Lemma checkSufficientBalance_threshold_witness :
  ans_getAccountByAddress unregistered_node addr0 (node (world0 no_files)) =
    (1, Ok 4000000000%Z) /\
  checkSufficientBalance unregistered_node addr0 (world0 no_files) =
  Returned ((10000000000 <=? 4000000000)%Z,
            Float64.div (Float64.of_Z 4000000000) 100000%Q)
           (after (world0 no_files) 1
              (<[(ValidatorBalanceGauge, addr0) := Float64.of_Z 4000000000]>
                 (metrics (world0 no_files)))
              [EvRpc (getAccountByAddress addr0);
               EvSet ValidatorBalanceGauge addr0 (Float64.of_Z 4000000000)]).
Proof.
  split; [reflexivity |].
  apply (checkSufficientBalance_threshold unregistered_node addr0
           (world0 no_files) 1 4000000000%Z); reflexivity.
Defined.

Lemma active_evaluation_idempotent_witness :
  ans_getValidatorByAddress active_node addr0 (node (world0 key_files)) =
    (1, Ok (Some (record0 false None))) /\
  Retired (record0 false None) = false /\
  JailedFrom (record0 false None) = None /\
  ans_getBlockNumber active_node 1 = (2, Ok 5000%Z) /\
  ans_getValidatorByAddress active_node addr0 2 = (3, Ok (Some (record0 false None))) /\
  ans_getBlockNumber active_node 3 = (4, Ok 5000%Z) /\
  is_Ok (Ok 5000%Z) = is_Ok (Ok 5000%Z) /\
  exists b m evs,
    checkAndHandleValidatorStatus active_node addr0 (world0 key_files) =
      Returned b (after (world0 key_files) 2 m evs) /\
    checkAndHandleValidatorStatus active_node addr0 (after (world0 key_files) 2 m evs) =
      Returned b (after (after (world0 key_files) 2 m evs) 4 m evs) /\
    invoked Activate evs = false /\
    invoked Reactivate evs = false.
Proof.
  do 7 (split; [reflexivity |]).
  apply (active_evaluation_idempotent active_node addr0 (world0 key_files)
           (record0 false None) 1 2 (Ok 5000%Z) 3 4 (Ok 5000%Z)); reflexivity.
Defined.

Lemma activated_gauge_whenever_fetched_witness :
  ans_getValidatorByAddress retired_node addr0 (node (world0 key_files)) =
    (1, Ok (Some (record0 true (Some 100%Z)))) /\
  exists b n m evs,
    checkAndHandleValidatorStatus retired_node addr0 (world0 key_files) =
      Returned b (after (world0 key_files) n m evs) /\
    m !! (ValidatorActivatedGauge, addr0) = Some 1%Q /\
    In (EvSet ValidatorActivatedGauge addr0 1%Q) evs.
Proof.
  split; [reflexivity |].
  apply (activated_gauge_whenever_fetched retired_node addr0 (world0 key_files) 1
           (record0 true (Some 100%Z))); reflexivity.
Defined.

Lemma lifecycle_result_witness :
  ans_getValidatorByAddress jailed_node addr0 (node (world0 key_files)) =
    (1, Ok (Some (record0 false (Some 100%Z)))) /\
  null_record (Ok (Some (record0 false (Some 100%Z)))) = false /\
  exists n m evs,
    checkAndHandleValidatorStatus jailed_node addr0 (world0 key_files) =
    Returned
      (negb (fetch_failed (Ok (Some (record0 false (Some 100%Z))))
             || retired_flag (Ok (Some (record0 false (Some 100%Z))))
             || block_query_failed jailed_node 1))
      (after (world0 key_files) n m evs).
Proof.
  split; [reflexivity |]. split; [reflexivity |].
  apply (lifecycle_result jailed_node addr0 (world0 key_files) 1
           (Ok (Some (record0 false (Some 100%Z))))); reflexivity.
Defined.

Lemma key_file_readers_witness :
  exists privateKey voteKey,
    getPrivateKey "/keys/signing_key.txt" (world0 key_files) =
      Returned privateKey
        (after (world0 key_files) 0 (metrics (world0 key_files))
           [EvReadFile "/keys/signing_key.txt"]) /\
    getVoteKey "/keys/signing_key.txt" (world0 key_files) =
      Returned voteKey
        (after (world0 key_files) 0 (metrics (world0 key_files))
           [EvReadFile "/keys/signing_key.txt"]) /\
    (exists key, privateKey = Ok key /\ text.trimmed "   5a6b7c  " key) /\
    is_Ok voteKey = false.
Proof.
  destruct (key_file_readers "/keys/signing_key.txt" (world0 key_files))
    as (privateKey & voteKey & Hp & Hv & H).
  exists privateKey, voteKey. split; [exact Hp |]. split; [exact Hv |].
  change (files (world0 key_files) "/keys/signing_key.txt")
    with (Some (lines_of ["Address:       NQ07 0000"; "Public Key:    b1c2";
                          "Private Key:   5a6b7c  "; ""]%string)) in H.
  destruct (H ["Address:       NQ07 0000"; "Public Key:    b1c2";
               "Private Key:   5a6b7c  "; ""]%string)
    as (Hfound & _ & _ & Hnone).
  - split; [discriminate |]. split; [reflexivity |].
    repeat (apply Forall_cons; split; [by apply not_contains |]).
    apply Forall_nil. exact I.
  - split.
    + apply (Hfound ["Address:       NQ07 0000"; "Public Key:    b1c2"]%string
               "Private Key:   5a6b7c  "%string [""%string] "   5a6b7c  "%string);
        [reflexivity | | reflexivity].
      repeat (apply Forall_cons; split; [by apply not_starts |]).
      apply Forall_nil. exact I.
    + apply Hnone. intros i line Hi Hc. exfalso. revert Hc.
      do 4 (destruct i as [| i];
            [injection Hi as <-; by apply not_contains |]).
      discriminate Hi.
Defined.

(** C8 does not hold without its condition on the block number query.
    The record is the same in both evaluations, not retired and without
    jail marker, but the block number query fails in the first and answers
    in the second: the first evaluation returns false after six gauge
    writes and leaves the jail gauge unset, the second returns true after
    eight and sets it to 0. *)
Lemma idempotence_needs_equal_block_answers :
  ans_getValidatorByAddress recovering_node addr0 (node (world0 key_files)) =
    (1, Ok (Some (record0 false None))) /\
  ans_getValidatorByAddress recovering_node addr0 (node recovering_first) =
    (3, Ok (Some (record0 false None))) /\
  value (checkAndHandleValidatorStatus recovering_node addr0 (world0 key_files)) =
    Some false /\
  value (checkAndHandleValidatorStatus recovering_node addr0 recovering_first) =
    Some true /\
  length (published (trace recovering_first)) = 6 /\
  length (published (drop (length (trace recovering_first))
                          (trace recovering_second))) = 8 /\
  metrics recovering_first !! (prometheus.ValidatorJailedGauge, addr0) = None /\
  metrics recovering_second !! (prometheus.ValidatorJailedGauge, addr0) = Some 0%Q.
Proof. repeat split; vm_compute; reflexivity. Qed.

(** C9 does not extend to a fetch that succeeds with a null record: the
    evaluation panics in [updateValidatorMetrics], before any gauge is
    written. *)
Lemma activated_gauge_unset_on_null_record :
  fetch_failed
    (ans_getValidatorByAddress null_node addr0 (node (world0 key_files))).2 = false /\
  checkAndHandleValidatorStatus null_node addr0 (world0 key_files) = Panicked.
Proof. split; reflexivity. Qed.

(** C10 does not extend to a null record: the fetch does not fail, no
    retired flag is set and the block number query would succeed, yet the
    evaluation does not return true: it does not return. *)
Lemma no_result_on_null_record :
  fetch_failed
    (ans_getValidatorByAddress null_node addr0 (node (world0 key_files))).2 = false /\
  retired_flag
    (ans_getValidatorByAddress null_node addr0 (node (world0 key_files))).2 = false /\
  block_query_failed null_node 1 = false /\
  value (checkAndHandleValidatorStatus null_node addr0 (world0 key_files)) = None.
Proof. repeat split; reflexivity. Qed.

End Runs.

(** ** Conversions of integers up to 2^53 are exact *)
Module Float64_exact.
Import Float64 Float64_facts.
#[local] Open Scope Q_scope.

Lemma Qred_inject_Z (z : Z) : Qred (inject_Z z) = inject_Z z.
Proof.
  unfold Qred, inject_Z. cbn [Qnum Qden].
  pose proof (Z.ggcd_gcd z 1) as Hg.
  pose proof (Z.ggcd_correct_divisors z 1) as Hd.
  destruct (Z.ggcd z 1) as [g [a b]]. cbn [fst] in Hg.
  rewrite Z.gcd_1_r in Hg. subst g. destruct Hd as [Ha Hb].
  replace a with z by lia. replace b with 1%Z by lia. reflexivity.
Qed.

Lemma rne_proper x y : x == y -> rne x = rne y.
Proof.
  intros H. apply Z.le_antisymm; apply rne_mono; rewrite H; apply Qle_refl.
Qed.

Lemma scaled_Z (z j : Z) :
  (j <= 0)%Z -> inject_Z z / 2 ^ j == inject_Z (z * 2 ^ (- j)).
Proof.
  intros Hj. rewrite inject_Z_mult, inject_Z_pow by lia.
  replace j with (- - j)%Z at 1 by lia.
  rewrite Qpower_opp. unfold Qdiv. rewrite Qinv_involutive. reflexivity.
Qed.

Lemma of_Z_exact (z : Z) :
  (Z.abs z <= 2 ^ 53)%Z -> of_Z z = inject_Z z.
Proof.
  intros Hz. unfold of_Z, round64.
  destruct (Qeq_bool (inject_Z z) 0) eqn:E.
  - apply Qeq_bool_iff in E. unfold Qeq, inject_Z in E. cbn in E.
    replace z with 0%Z by lia. reflexivity.
  - assert (Hnz : z <> 0%Z).
    { intros ->. discriminate. }
    transitivity (Qred (inject_Z z)); [apply Qred_complete | apply Qred_inject_Z].
    unfold ulp. change (Qabs (inject_Z z)) with (inject_Z (Z.abs z)).
    assert (Ha : 0 < inject_Z (Z.abs z)).
    { change 0 with (inject_Z 0). rewrite <- Zlt_Qlt. lia. }
    destruct (ilog2_spec _ Ha) as [Hlo Hhi].
    set (k := ilog2 (inject_Z (Z.abs z))) in *.
    assert (Hk : (k <= 53)%Z).
    { destruct (Z_le_gt_dec k 53%Z) as [? | Hgt]; [assumption | exfalso].
      assert (H54 : 2 ^ 54 <= 2 ^ k) by (apply two_pow_le; lia).
      assert (H53 : inject_Z (Z.abs z) <= inject_Z (2 ^ 53))
        by (rewrite <- Zle_Qle; assumption).
      rewrite inject_Z_pow in H53 by lia.
      assert (2 ^ 53 < 2 ^ 54) by reflexivity.
      lra. }
    destruct (Z.eq_dec k 53%Z) as [Ek | Nk].
    + assert (Hge : (2 ^ 53 <= Z.abs z)%Z).
      { rewrite Zle_Qle, inject_Z_pow by lia. rewrite <- Ek. exact Hlo. }
      rewrite Ek.
      assert (Hcase : z = (2 ^ 53)%Z \/ z = (- 2 ^ 53)%Z) by lia.
      destruct Hcase as [-> | ->]; vm_compute; reflexivity.
    + assert (Hj : (k - 52 <= 0)%Z) by lia.
      rewrite (rne_proper _ _ (scaled_Z z (k - 52) Hj)), rne_Z.
      rewrite inject_Z_mult, inject_Z_pow by lia.
      rewrite <- Qmult_assoc, <- Qpower_plus by discriminate.
      replace (- (k - 52) + (k - 52))%Z with 0%Z by lia.
      change (2 ^ 0) with 1. ring.
Qed.

End Float64_exact.

(** * Further properties of the code *)

(** A leaf of [reActivateValidator] at which a step has failed: what is
    left to show is which step it was. *)
Ltac failed_reactivation :=
  eexists false, _, _, _; split; [reflexivity |]; right;
  split; [reflexivity |]; split;
  [ unfold all_reactivation_steps_succeed;
    cbv beta iota delta [node files faucetURL network metrics trace];
    intros ? ? ? (? & ? & ? & ? & ? & ? & ? & ? & ? & ?); congruence
  | split; [reflexivity |];
    cbv beta iota delta [node files faucetURL network metrics trace] ].

(** A gauge of another address under writes to gauges of [address]. *)
Ltac other_label :=
  intros; repeat (rewrite lookup_insert_ne by congruence); reflexivity.

Lemma entered_app p evs evs' :
  entered p (evs ++ evs') = entered p evs + entered p evs'.
Proof. unfold entered. by rewrite List.filter_app, length_app. Qed.

Lemma entered_none p evs : invoked p evs = false -> entered p evs = 0.
Proof.
  unfold invoked, entered. induction evs as [| e evs IH]; [reflexivity |].
  cbn [existsb List.filter]. destruct (enters p e); [discriminate |].
  exact IH.
Qed.

Section Summaries.
Context {N : Type} (client : Client N).
Implicit Types (w : World N) (address : string).

Lemma activateValidator_summary address w :
  exists b n m evs,
    activateValidator client address w =
      Returned b (after w n m (EvEnter Activate :: evs)) /\
    (forall p, invoked p evs = false) /\
    (forall g a, a <> address -> m !! (g, a) = metrics w !! (g, a)).
Proof.
  open_world w.
  unfold activateValidator, rpc.ImportRawKey, rpc.UnlockAccount,
    rpc.SendNewValidatorTransaction, rpc.SendRawTransaction.
  run.
  do 3 (key_file; [| eexists _, _, _, _; split; [reflexivity | by auto]]).
  answer; [| eexists _, _, _, _; split; [reflexivity | by auto]].
  destruct (String.eqb _ ""); run;
    [eexists _, _, _, _; split; [reflexivity | by auto] |].
  answer; [| eexists _, _, _, _; split; [reflexivity | by auto]].
  match goal with b : bool |- _ => destruct b end; run;
    [| eexists _, _, _, _; split; [reflexivity | by auto]].
  answer; [| eexists _, _, _, _; split; [reflexivity | by auto]].
  answer; eexists _, _, _, _; (split; [reflexivity |]); split;
    first [ by auto | other_label ].
Qed.

Lemma reActivateValidator_summary address w :
  exists b n m evs,
    reActivateValidator client address w =
      Returned b (after w n m (EvEnter Reactivate :: evs)) /\
    (forall p, invoked p evs = false) /\
    (forall g a, a <> address -> m !! (g, a) = metrics w !! (g, a)) /\
    (forall g, g <> prometheus.ValidatorReActivatedCounterGauge ->
               m !! (g, address) = metrics w !! (g, address)).
Proof.
  open_world w.
  unfold reActivateValidator, rpc.ImportRawKey, rpc.UnlockAccount,
    rpc.SendReactivateValidatorTransaction.
  run.
  do 2 (key_file; [| eexists _, _, _, _; split; [reflexivity | by auto]]).
  answer; [| eexists _, _, _, _; split; [reflexivity | by auto]].
  destruct (String.eqb _ ""); run;
    [eexists _, _, _, _; split; [reflexivity | by auto] |].
  answer; [| eexists _, _, _, _; split; [reflexivity | by auto]].
  match goal with b : bool |- _ => destruct b end; run;
    [| eexists _, _, _, _; split; [reflexivity | by auto]].
  answer; eexists _, _, _, _; (split; [reflexivity |]);
    (split; [by auto |]); split; first [ by auto | other_label ].
Qed.

End Summaries.

(** Replace a call of Activate or Reactivate by its summary. *)
Ltac summarise :=
  match goal with
  | |- context [activateValidator ?c ?a ?w] =>
      let E := fresh "E" in
      destruct (activateValidator_summary c a w) as (? & ? & ? & ? & E & ? & ?);
      rewrite E; clear E
  | |- context [reActivateValidator ?c ?a ?w] =>
      let E := fresh "E" in
      destruct (reActivateValidator_summary c a w)
        as (? & ? & ? & ? & E & ? & ? & ?);
      rewrite E; clear E
  end;
  cbn [node files faucetURL network metrics trace] in *; run.

Section MoreProcedures.
Context {N : Type} (client : Client N).
Implicit Types (w : World N) (address : string) (d : ValidatorDetails).
Import prometheus.

(** X1. Reactivate reads the signing key and the account key (never the
    voting key), imports the account key, unlocks the account with
    duration 0 and sends the reactivation transaction, in this order.  It
    returns true exactly when every step succeeds, and then it has
    incremented the reactivation counter and written nothing else.
    Otherwise it returns false with the registry unchanged, and it has
    stopped at the first failing step: its events are exactly the steps up
    to and including the first one that failed (a key file that yields no
    key, an import that fails or returns no address, an unlock that fails
    or is refused, a transaction that is not accepted), and nothing after
    it. *)
Theorem reActivateValidator_steps address w :
  exists b n m evs,
    reActivateValidator client address w = Returned b (after w n m evs) /\
    ((b = true /\
      exists sigKey addressPrivate,
        all_reactivation_steps_succeed client address w sigKey addressPrivate n /\
        evs = reactivate_steps address sigKey addressPrivate ++
              [EvInc ValidatorReActivatedCounterGauge address] /\
        m = <[(ValidatorReActivatedCounterGauge, address) :=
                Float64.add
                  (default 0%Q
                     (metrics w !! (ValidatorReActivatedCounterGauge, address)))
                  1%Q]> (metrics w))
     \/
     (b = false /\
      (forall sigKey addressPrivate n',
          ~ all_reactivation_steps_succeed client address w sigKey addressPrivate n') /\
      m = metrics w /\
      ((exists e,
           private_key_in (files w) "/keys/signing_key.txt" = Err e /\
           n = node w /\
           evs = [EvEnter Reactivate; EvReadFile "/keys/signing_key.txt"])
       \/
       (exists sigKey e,
           private_key_in (files w) "/keys/signing_key.txt" = Ok sigKey /\
           private_key_in (files w) "/keys/address.txt" = Err e /\
           n = node w /\
           evs = take 3 (reactivate_steps address sigKey ""))
       \/
       (exists sigKey addressPrivate r,
           private_key_in (files w) "/keys/signing_key.txt" = Ok sigKey /\
           private_key_in (files w) "/keys/address.txt" = Ok addressPrivate /\
           ans_importRawKey client addressPrivate "" (node w) = (n, r) /\
           match r with Ok imported => imported = ""%string | Err _ => True end /\
           evs = take 4 (reactivate_steps address sigKey addressPrivate))
       \/
       (exists sigKey addressPrivate n1 imported r,
           private_key_in (files w) "/keys/signing_key.txt" = Ok sigKey /\
           private_key_in (files w) "/keys/address.txt" = Ok addressPrivate /\
           ans_importRawKey client addressPrivate "" (node w) = (n1, Ok imported) /\
           imported <> ""%string /\
           ans_unlockAccount client address "" 0 n1 = (n, r) /\
           r <> Ok true /\
           evs = take 5 (reactivate_steps address sigKey addressPrivate))
       \/
       (exists sigKey addressPrivate n1 imported n2 e,
           private_key_in (files w) "/keys/signing_key.txt" = Ok sigKey /\
           private_key_in (files w) "/keys/address.txt" = Ok addressPrivate /\
           ans_importRawKey client addressPrivate "" (node w) = (n1, Ok imported) /\
           imported <> ""%string /\
           ans_unlockAccount client address "" 0 n1 = (n2, Ok true) /\
           ans_sendReactivateValidatorTransaction client address address sigKey
             500 "+0" n2 = (n, Err e) /\
           evs = reactivate_steps address sigKey addressPrivate)))).
Proof.
  open_world w.
  unfold reActivateValidator, rpc.ImportRawKey, rpc.UnlockAccount,
    rpc.SendReactivateValidatorTransaction.
  run.
  key_file; [| failed_reactivation; left; eauto].
  key_file; [| failed_reactivation; right; left; eauto 6].
  answer;
    [| failed_reactivation; do 2 right; left; eexists _, _, _; eauto 10].
  match goal with |- context [String.eqb ?s ""] => destruct (String.eqb_spec s "") end;
    run; [failed_reactivation; do 2 right; left; eexists _, _, _; eauto 10 |].
  answer;
    [| failed_reactivation; do 3 right; left; eexists _, _, _, _, _;
       repeat split; eauto; discriminate].
  match goal with b : bool |- _ => destruct b end; run;
    [| failed_reactivation; do 3 right; left; eexists _, _, _, _, _;
       repeat split; eauto; discriminate].
  answer;
    [| failed_reactivation; do 4 right; eexists _, _, _, _, _, _;
       repeat split; eauto].
  eexists true, _, _, _. split; [reflexivity |]. left. split; [reflexivity |].
  match goal with
  | H : private_key_in _ "/keys/signing_key.txt" = Ok ?k |- _ => exists k
  end.
  match goal with
  | H : private_key_in _ "/keys/address.txt" = Ok ?k |- _ => exists k
  end.
  split; [| split; reflexivity].
  unfold all_reactivation_steps_succeed.
  cbv beta iota delta [node files faucetURL network metrics trace].
  repeat split; try assumption. eauto 10.
Qed.

(** X2. When the node answers the record fetch without error but with a
    null record, the lifecycle check and the registration check dereference
    it: the process panics instead of returning. *)
Theorem null_record_panics address w n1 :
  ans_getValidatorByAddress client address (node w) = (n1, Ok None) ->
  checkAndHandleValidatorStatus client address w = Panicked /\
  checkActive client address w = Panicked.
Proof.
  intros Hfetch. open_world w.
  unfold checkActive. evaluate. rewrite Hfetch. run. split; reflexivity.
Qed.

(** X3. Whatever it does, the lifecycle check for [address] leaves the
    gauges of every other address as they were. *)
Theorem other_addresses_untouched address w b w' :
  checkAndHandleValidatorStatus client address w = Returned b w' ->
  forall g a, a <> address -> metrics w' !! (g, a) = metrics w !! (g, a).
Proof.
  open_world w. evaluate. answer.
  - match goal with o : option ValidatorDetails |- _ => destruct o as [d |] end;
      run; [| discriminate].
    destruct (Retired d); run.
    + summarise. intros [= <- <-]. cbn [metrics]. intros g a Ha.
      match goal with H : forall g a, a <> _ -> _ |- _ => rewrite H by assumption end.
      other_label.
    + answer; [| intros [= <- <-]; cbn [metrics]; other_label].
      destruct (JailedFrom d) as [jailedFrom |]; run;
        [destruct (wrap64 _ <? blocksForReactivation)%Z; run |];
        intros [= <- <-]; cbn [metrics]; other_label.
  - summarise. intros [= <- <-]. cbn [metrics]. auto.
Qed.

(** X4. Whenever the lifecycle check returns true, it leaves the registry
    with activated = 1, retired = 0, jailed = 0 and jailed-from = 0 for the
    address, and it has entered neither Activate nor Reactivate. *)
Theorem true_result_registry address w w' :
  checkAndHandleValidatorStatus client address w = Returned true w' ->
  metrics w' !! (ValidatorActivatedGauge, address) = Some 1%Q /\
  metrics w' !! (ValidatorRetiredGauge, address) = Some 0%Q /\
  metrics w' !! (ValidatorJailedGauge, address) = Some 0%Q /\
  metrics w' !! (ValidatorJailedFromGauge, address) = Some 0%Q /\
  exists evs, trace w' = trace w ++ evs /\
              invoked Activate evs = false /\ invoked Reactivate evs = false.
Proof.
  open_world w. evaluate. answer.
  - match goal with o : option ValidatorDetails |- _ => destruct o as [d |] end;
      run; [| discriminate].
    destruct (Retired d); run.
    + summarise. discriminate.
    + answer; [| discriminate].
      destruct (JailedFrom d) as [jailedFrom |]; run;
        [destruct (wrap64 _ <? blocksForReactivation)%Z; run |];
        intros [= <-]; cbn [metrics trace];
        (repeat split; [find_written .. | eexists; repeat split; reflexivity]).
  - summarise. discriminate.
Qed.

End MoreProcedures.

Lemma after_after {N} (w : World N) n m evs n' m' evs' :
  after (after w n m evs) n' m' evs' = after w n' m' (evs ++ evs').
Proof. unfold after. cbn. by rewrite <- app_assoc. Qed.

Lemma wrap64_small (z : Z) :
  (- 2 ^ 63 <= z < 2 ^ 63)%Z -> wrap64 z = z.
Proof. intros H. unfold wrap64. rewrite Z.mod_small; lia. Qed.

Section MoreLifecycle.
Context {N : Type} (client : Client N).
Implicit Types (w : World N) (address : string) (d : ValidatorDetails).
Import prometheus.

(** X5. For a record that is not retired and block numbers that are not
    negative, the evaluation ends with the gauge writes jailed = 1,
    jailed-from = marker, jailed = 0, jailed-from = 0 when the current block
    is less than 8000 blocks after the marker, and with jailed = 0,
    jailed = 0, jailed-from = 0 otherwise. *)
Theorem jail_window_writes address w n1 d jailedFrom n2 currentBlockNumber :
  ans_getValidatorByAddress client address (node w) = (n1, Ok (Some d)) ->
  Retired d = false ->
  JailedFrom d = Some jailedFrom ->
  ans_getBlockNumber client n1 = (n2, Ok currentBlockNumber) ->
  (0 <= jailedFrom < 2 ^ 63)%Z ->
  (0 <= currentBlockNumber < 2 ^ 63)%Z ->
  exists m evs,
    checkAndHandleValidatorStatus client address w =
      Returned true
        (after w n2 m
           (evs ++ EvRpc getBlockNumber ::
              (if (currentBlockNumber - jailedFrom <? 8000)%Z then
                 [EvSet ValidatorJailedGauge address 1%Q;
                  EvSet ValidatorJailedFromGauge address (Float64.of_Z jailedFrom)]
               else [EvSet ValidatorJailedGauge address 0%Q]) ++
              [EvSet ValidatorJailedGauge address 0%Q;
               EvSet ValidatorJailedFromGauge address 0%Q])).
Proof.
  intros Hfetch Hretired Hjail Hblock Hjf Hcur. open_world w.
  evaluate. rewrite Hfetch. run. rewrite Hretired, Hjail. run. rewrite Hblock. run.
  rewrite wrap64_small by lia. unfold blocksForReactivation.
  destruct (currentBlockNumber - jailedFrom <? 8000)%Z; run;
    eexists _,
      [EvRpc (getValidatorByAddress address); _; _; _; _; _; _];
    reflexivity.
Qed.

(** One iteration of the balance-accumulation loop on an address that has
    neither a record nor the funds. *)
Lemma periodicUpdates_tick_unfunded address w :
  never_registered client address ->
  never_funded client address ->
  exists n m evs,
    periodicUpdates_tick client address w = Returned false (after w n m evs) /\
    invoked Activate evs = false /\
    invoked Reactivate evs = false /\
    entered Fund evs = if String.eqb (network w) "testnet" then 1 else 0.
Proof.
  intros Hreg Hfund. open_world w.
  unfold periodicUpdates_tick, checkSufficientBalance, checkActive, fundAddress,
    rpc.GetAccountBalanceByAddress, rpc.GetValidatorByAddress.
  run.
  pose proof (Hfund n0) as Hb.
  destruct (ans_getAccountByAddress client address n0) as [n1 [balance | e]];
    cbn [snd] in Hb; run.
  - rewrite Float64_facts.balance_threshold.
    destruct (Z.leb_spec 10000000000 balance); [lia |].
    pose proof (Hreg n1) as Hr.
    destruct (ans_getValidatorByAddress client address n1) as [n2 [r | e]];
      cbn [snd fetch_failed] in Hr; [discriminate |]; run. cbn [orb]. run.
    destruct (String.eqb net "testnet"); run;
      [answer; [destruct (_ =? 200)%Z; run |] |];
      eexists _, _, _; repeat split; reflexivity.
  - pose proof (Hreg n1) as Hr.
    destruct (ans_getValidatorByAddress client address n1) as [n2 [r | e']];
      cbn [snd fetch_failed] in Hr; [discriminate |]; run. cbn [orb]. run.
    destruct (String.eqb net "testnet"); run;
      [answer; [destruct (_ =? 200)%Z; run |] |];
      eexists _, _, _; repeat split; reflexivity.
Qed.

(** X6. As long as the address has no validator record and its balance is
    unreadable or below the threshold, [periodicUpdates] does not return: it
    never enters Activate or Reactivate and, on the network "testnet", asks
    the faucet exactly once per iteration (never on another network). *)
Theorem periodicUpdates_keeps_waiting address ticks w :
  never_registered client address ->
  never_funded client address ->
  exists n m evs,
    periodicUpdates client ticks address w = Returned false (after w n m evs) /\
    invoked Activate evs = false /\
    invoked Reactivate evs = false /\
    entered Fund evs = if String.eqb (network w) "testnet" then ticks else 0.
Proof.
  intros Hreg Hfund. revert w.
  induction ticks as [| ticks IH]; intros w.
  - exists (node w), (metrics w), []. split; [| by destruct (String.eqb _ _)].
    destruct w. unfold after. cbn. by rewrite app_nil_r.
  - destruct (periodicUpdates_tick_unfunded address w Hreg Hfund)
      as (n1 & m1 & evs1 & E1 & HA1 & HR1 & HF1).
    destruct (IH (after w n1 m1 evs1)) as (n2 & m2 & evs2 & E2 & HA2 & HR2 & HF2).
    exists n2, m2, (evs1 ++ evs2).
    cbn [periodicUpdates]. cbv beta iota delta [mbind M_bind]. rewrite E1, E2.
    rewrite after_after. split; [reflexivity |].
    rewrite !invoked_app, HA1, HA2, HR1, HR2, entered_app, HF1, HF2.
    cbn [network after]. repeat split.
    destruct (String.eqb (network w) "testnet"); lia.
Qed.

(** The lifecycle check returns true only in good standing. *)
Lemma good_standing_when_true address w w' :
  checkAndHandleValidatorStatus client address w = Returned true w' ->
  metrics w' !! (ValidatorActivatedGauge, address) = Some 1%Q /\
  metrics w' !! (ValidatorRetiredGauge, address) = Some 0%Q /\
  metrics w' !! (ValidatorJailedGauge, address) = Some 0%Q /\
  metrics w' !! (ValidatorJailedFromGauge, address) = Some 0%Q.
Proof.
  open_world w. evaluate. answer.
  - match goal with o : option ValidatorDetails |- _ => destruct o as [d |] end;
      run; [| discriminate].
    destruct (Retired d); run.
    + summarise. discriminate.
    + answer; [| discriminate].
      destruct (JailedFrom d) as [jailedFrom |]; run;
        [destruct (wrap64 _ <? blocksForReactivation)%Z; run |];
        intros [= <-]; cbn [metrics trace]; repeat split; find_written.
  - summarise. discriminate.
Qed.

(** An iteration of the balance-accumulation loop ends the loop only
    through a lifecycle check that returned true. *)
Lemma periodicUpdates_tick_exit address w w' :
  periodicUpdates_tick client address w = Returned true w' ->
  exists w0, checkAndHandleValidatorStatus client address w0 = Returned true w'.
Proof.
  open_world w.
  unfold periodicUpdates_tick, checkSufficientBalance, checkActive, fundAddress,
    rpc.GetAccountBalanceByAddress, rpc.GetValidatorByAddress.
  run. answer.
  - answer.
    + match goal with o : option ValidatorDetails |- _ => destruct o as [d |] end;
        run; [| discriminate].
      destruct (String.eqb (Address d) address); run;
        destruct (Float64.geb _ _); cbn [orb]; run; eauto;
        destruct (String.eqb net "testnet"); run;
        [answer; [destruct (_ =? 200)%Z; run |] |]; discriminate.
    + destruct (Float64.geb _ _); cbn [orb]; run; eauto;
        destruct (String.eqb net "testnet"); run;
        [answer; [destruct (_ =? 200)%Z; run |] |]; discriminate.
  - answer.
    + match goal with o : option ValidatorDetails |- _ => destruct o as [d |] end;
        run; [| discriminate].
      destruct (String.eqb (Address d) address); run; cbn [orb]; run; eauto;
        destruct (String.eqb net "testnet"); run;
        [answer; [destruct (_ =? 200)%Z; run |] |]; discriminate.
    + cbn [orb]; run;
        destruct (String.eqb net "testnet"); run;
        [answer; [destruct (_ =? 200)%Z; run |] |]; discriminate.
Qed.

(** X7. When [periodicUpdates] returns, the registry shows the address in
    good standing: activated = 1, retired = 0, jailed = 0, jailed-from = 0. *)
Theorem periodicUpdates_returns_in_good_standing address ticks w w' :
  periodicUpdates client ticks address w = Returned true w' ->
  metrics w' !! (ValidatorActivatedGauge, address) = Some 1%Q /\
  metrics w' !! (ValidatorRetiredGauge, address) = Some 0%Q /\
  metrics w' !! (ValidatorJailedGauge, address) = Some 0%Q /\
  metrics w' !! (ValidatorJailedFromGauge, address) = Some 0%Q.
Proof.
  revert w. induction ticks as [| ticks IH]; intros w; [discriminate |].
  cbn [periodicUpdates]. cbv beta iota delta [mbind M_bind].
  destruct (periodicUpdates_tick client address w) as [[|] w1 |] eqn:Etick;
    [| apply IH | discriminate].
  intros [= <-].
  destruct (periodicUpdates_tick_exit address w w1 Etick) as [w0 Hcheck].
  exact (good_standing_when_true address w0 w1 Hcheck).
Qed.

End MoreLifecycle.

Lemma entered_cons p e evs :
  entered p (e :: evs) = (if enters p e then 1 else 0) + entered p evs.
Proof. unfold entered. cbn [List.filter]. by destruct (enters p e). Qed.

(** Count the entries of a procedure over a trace given by its parts. *)
Ltac count_entries :=
  repeat first [ rewrite entered_app | rewrite entered_cons ];
  rewrite ?entered_none by auto;
  cbn [enters Proc_eqb entered List.filter length]; try lia.

Section Startup.
Context {N : Type} (client : Client N).
Implicit Types (w : World N) (address : string) (d : ValidatorDetails).
Import prometheus.

(** X8. Without three established consensus checks in a row [main] returns
    before anything else happens: the only requests sent are the consensus
    checks up to the first refusal, no gauge is written and no procedure is
    entered. *)
Theorem main_stops_without_consensus ticks w :
  forallb established (consensus_answers client 3 (node w)) = false ->
  exists n evs,
    main_startup client ticks w = Returned NoConsensus (after w n (metrics w) evs) /\
    requests evs =
      repeat isConsensusEstablished
             (checks_needed (consensus_answers client 3 (node w))) /\
    published evs = [] /\
    forall p, invoked p evs = false.
Proof.
  open_world w.
  unfold main_startup, checkConsensus.
  change (seqZ 1 maxAttempts) with [1; 2; 3]%Z.
  cbn [checkConsensus_loop consensus_answers].
  change (1 <? maxAttempts)%Z with true.
  change (2 <? maxAttempts)%Z with true.
  change (3 <? maxAttempts)%Z with false.
  unfold rpc.IsConsensusEstablished. run.
  destruct (ans_isConsensusEstablished client n0) as [n1 [[|] | e1]];
    run; [| intros _; eexists _, _; repeat split; reflexivity ..].
  destruct (ans_isConsensusEstablished client n1) as [n2 [[|] | e2]];
    run; [| intros _; eexists _, _; repeat split; reflexivity ..].
  destruct (ans_isConsensusEstablished client n2) as [n3 [[|] | e3]];
    run; [discriminate | intros _; eexists _, _; repeat split; reflexivity ..].
Qed.

(** X9. When consensus is established and the node answers the record
    query without error, [main] goes straight to its ticker loop: the
    requests sent are three consensus checks, the epoch number, the address
    and the record, the balance is not read, no procedure is entered, and
    the activation gauge and counter of the address stand at 0, even for a
    null record, which is not dereferenced here. *)
Theorem main_skips_checks_when_registered ticks w n2 validatorAddress n3 r :
  forallb established (consensus_answers client 3 (node w)) = true ->
  ans_getAddress client
    (ans_getEpochNumber client (after_checks client 3 (node w))).1 =
    (n2, Ok validatorAddress) ->
  ans_getValidatorByAddress client validatorAddress n2 = (n3, Ok r) ->
  exists m evs,
    main_startup client ticks w =
      Returned (MainLoop validatorAddress) (after w n3 m evs) /\
    m !! (ValidatorActivatedGauge, validatorAddress) = Some 0%Q /\
    m !! (ValidatorActivatedCounterGauge, validatorAddress) = Some 0%Q /\
    requests evs =
      [isConsensusEstablished; isConsensusEstablished; isConsensusEstablished;
       getEpochNumber; getAddress; getValidatorByAddress validatorAddress] /\
    forall p, invoked p evs = false.
Proof.
  open_world w.
  unfold main_startup, checkConsensus, updateEpochNumberGauge.
  change (seqZ 1 maxAttempts) with [1; 2; 3]%Z.
  cbn [checkConsensus_loop consensus_answers after_checks].
  change (1 <? maxAttempts)%Z with true.
  change (2 <? maxAttempts)%Z with true.
  change (3 <? maxAttempts)%Z with false.
  unfold rpc.IsConsensusEstablished, rpc.GetEpochNumber, rpc.GetAddress,
    rpc.GetValidatorByAddress.
  run.
  destruct (ans_isConsensusEstablished client n0) as [n1' [[|] | e1]];
    cbn [fst forallb established andb]; [| discriminate ..].
  destruct (ans_isConsensusEstablished client n1') as [n2' [[|] | e2]];
    cbn [fst forallb established andb]; [| discriminate ..].
  destruct (ans_isConsensusEstablished client n2') as [n3' [[|] | e3]];
    cbn [fst forallb established andb]; [| discriminate ..].
  intros _. change (0 + 1 + 1 + 1 =? maxAttempts)%Z with true. run.
  destruct (ans_getEpochNumber client n3') as [n4 [epochNumber | e]];
    cbn [fst]; intros Haddress Hfetch; run; rewrite Haddress; run;
    rewrite Hfetch; run;
    (eexists _, _; split; [reflexivity |]);
    (split; [find_written |]); (split; [find_written |]);
    split; reflexivity.
Qed.

(** A tick of the main loop on an address without a record. *)
Lemma main_tick_unregistered address w :
  never_registered client address ->
  exists n m evs,
    main_tick client address w = Returned false (after w n m evs) /\
    entered Activate evs = 1 /\
    invoked Reactivate evs = false /\
    invoked Fund evs = false.
Proof.
  intros Hreg. unfold main_tick.
  destruct (updateEpochNumberGauge_returns client w)
    as (n & m & evs & E & _ & Hevs).
  cbv beta iota delta [mbind M_bind]. rewrite E. clear E.
  open_world w. evaluate.
  pose proof (Hreg n) as Hr.
  destruct (ans_getValidatorByAddress client address n) as [n1 [r | e]];
    cbn [snd fetch_failed] in Hr; [discriminate |]; run.
  summarise. sub_procedure.
  eexists _, _, _. split; [reflexivity |].
  split; [count_entries |].
  split; repeat first [ rewrite invoked_cons | rewrite invoked_app ];
    repeat match goal with
           | H : forall p, invoked p _ = false |- _ => rewrite !H; clear H
           end;
    reflexivity.
Qed.

(** X10. As long as the node shows no record for the address, every tick
    of the main loop enters Activate once more, whatever the balance; the
    loop never enters Reactivate and never asks the faucet. *)
Theorem main_loop_activates_every_tick address ticks w :
  never_registered client address ->
  exists n m evs,
    main_loop client ticks address w = Returned tt (after w n m evs) /\
    entered Activate evs = ticks /\
    invoked Reactivate evs = false /\
    invoked Fund evs = false.
Proof.
  intros Hreg. revert w.
  induction ticks as [| ticks IH]; intros w.
  - exists (node w), (metrics w), []. split; [| by auto].
    destruct w. unfold after. cbn. by rewrite app_nil_r.
  - destruct (main_tick_unregistered address w Hreg)
      as (n1 & m1 & evs1 & E1 & HA1 & HR1 & HF1).
    destruct (IH (after w n1 m1 evs1)) as (n2 & m2 & evs2 & E2 & HA2 & HR2 & HF2).
    exists n2, m2, (evs1 ++ evs2).
    cbn [main_loop]. cbv beta iota delta [mbind M_bind]. rewrite E1, E2.
    rewrite after_after. split; [reflexivity |].
    rewrite !invoked_app, HR1, HR2, HF1, HF2, entered_app, HA1, HA2.
    repeat split.
Qed.

(** X11. The consensus gate sleeps 5 seconds after each established check
    but the third, and 60 seconds more when it stops on an error; it stops
    on a check that returns false without sleeping. *)
Theorem checkConsensus_waits w :
  let answers := consensus_answers client 3 (node w) in
  exists n evs,
    checkConsensus client w =
      Returned (forallb established answers) (after w n (metrics w) evs) /\
    slept evs =
      (5 * (Z.of_nat (checks_needed answers) - 1) +
       match refusal answers with Some (Err _) => 60 | _ => 0 end)%Z.
Proof.
  open_world w.
  unfold checkConsensus.
  change (seqZ 1 maxAttempts) with [1; 2; 3]%Z.
  cbn [checkConsensus_loop consensus_answers].
  change (1 <? maxAttempts)%Z with true.
  change (2 <? maxAttempts)%Z with true.
  change (3 <? maxAttempts)%Z with false.
  unfold rpc.IsConsensusEstablished. run.
  destruct (ans_isConsensusEstablished client n0) as [n1 [[|] | e1]];
    run; [| eexists _, _; split; reflexivity ..].
  destruct (ans_isConsensusEstablished client n1) as [n2 [[|] | e2]];
    run; [| eexists _, _; split; reflexivity ..].
  destruct (ans_isConsensusEstablished client n2) as [n3 [[|] | e3]];
    run; eexists _, _; split; reflexivity.
Qed.

End Startup.

Section Configuration.

(** X12. The serving port is always a colon followed by text that
    [strconv.Atoi] accepts: the value of PROMETHEUS_PORT when [Atoi] accepts
    it, "8000" otherwise.  The test for the empty value changes nothing, and
    no range of port numbers is enforced. *)
Theorem getServingPort_accepted (getenv : Getenv) :
  exists p n,
    getServingPort getenv = String.append ":" p /\
    strconv.Atoi p = Ok n /\
    p = match strconv.Atoi (getenv "PROMETHEUS_PORT") with
        | Ok _ => getenv "PROMETHEUS_PORT"
        | Err _ => "8000"%string
        end.
Proof.
  unfold getServingPort.
  destruct (String.eqb_spec (getenv "PROMETHEUS_PORT") "") as [-> | _].
  - exists "8000"%string, 8000%Z. repeat split.
  - destruct (strconv.Atoi (getenv "PROMETHEUS_PORT")) as [n | e] eqn:E.
    + exists (getenv "PROMETHEUS_PORT"), n. by rewrite E.
    + exists "8000"%string, 8000%Z. repeat split.
Qed.

(** X13. After [init] none of the three variables is empty, the node URL
    is the one [rpc.NewClient] computes on its own, and the network is
    "testnet" exactly when NIMIQ_NETWORK is unset, empty or "testnet". *)
Theorem init_defaults (getenv : Getenv) :
  var_nimiqNodeUrl (init getenv) = NewClient getenv /\
  var_nimiqNodeUrl (init getenv) <> ""%string /\
  var_faucetURL (init getenv) <> ""%string /\
  var_network (init getenv) <> ""%string /\
  (var_network (init getenv) = "testnet"%string <->
   getenv "NIMIQ_NETWORK" = ""%string \/ getenv "NIMIQ_NETWORK" = "testnet"%string).
Proof.
  unfold init, NewClient. cbn [var_nimiqNodeUrl var_faucetURL var_network].
  split; [reflexivity |].
  split; [by destruct (String.eqb_spec (getenv "NIMIQ_NODE_URL") "") |].
  split; [by destruct (String.eqb_spec (getenv "FAUCET_URL") "") |].
  destruct (String.eqb_spec (getenv "NIMIQ_NETWORK") "") as [-> | Hne].
  - split; [discriminate |]. split; auto.
  - split; [assumption |]. split; [auto | by intros [? | ?]].
Qed.

Lemma wrap64_add_l (a b : Z) : wrap64 (wrap64 a + b) = wrap64 (a + b).
Proof.
  unfold wrap64.
  replace ((a + 2 ^ 63) mod 2 ^ 64 - 2 ^ 63 + b + 2 ^ 63)%Z
    with ((a + 2 ^ 63) mod 2 ^ 64 + b)%Z by lia.
  rewrite Zplus_mod_idemp_l. f_equal. f_equal. lia.
Qed.

Lemma totalStake_from (data : list Z) (acc : Z) :
  fold_left (fun totalStake balance => wrap64 (totalStake + balance)) data
            (wrap64 acc) =
  wrap64 (acc + total data).
Proof.
  revert acc. induction data as [| balance data IH]; intros acc.
  - cbn. by rewrite Z.add_0_r.
  - cbn [fold_left total fold_right]. rewrite wrap64_add_l, IH.
    f_equal. unfold total. lia.
Qed.

(** X14. The total stake computed by the loop of
    [GetTotalStakeByValidatorAddress] is the sum of the stakers' balances
    reduced to 64 bits once: wrapping at every addition loses nothing more,
    and a sum outside the [int64] range is returned wrapped, without error. *)
Theorem totalStake_loop_sum (data : list Z) :
  totalStake_loop data = wrap64 (total data).
Proof.
  unfold totalStake_loop. change 0%Z with (wrap64 0) at 1.
  by rewrite totalStake_from.
Qed.

End Configuration.

Section Versions.
Context {N : Type} (client : Client N).
Implicit Types (w : World N) (address : string) (d : ValidatorDetails).
Import prometheus.

(** X15. In the earlier version of the lifecycle check a record that is
    not retired and carries a jail marker makes the check return false with
    jailed = 1 and jailed-from = marker in the registry; the only request
    is the record fetch, and no procedure is entered. *)
Theorem earlier_version_reports_jail address w n1 d jailedFrom :
  ans_getValidatorByAddress client address (node w) = (n1, Ok (Some d)) ->
  Retired d = false ->
  JailedFrom d = Some jailedFrom ->
  exists m evs,
    part_001.checkAndHandleValidatorStatus client address w =
      Returned false (after w n1 m evs) /\
    m !! (ValidatorJailedGauge, address) = Some 1%Q /\
    m !! (ValidatorJailedFromGauge, address) = Some (Float64.of_Z jailedFrom) /\
    requests evs = [getValidatorByAddress address] /\
    forall p, invoked p evs = false.
Proof.
  intros Hfetch Hretired Hjail. open_world w.
  unfold part_001.checkAndHandleValidatorStatus, part_001.updateValidatorMetrics,
    rpc.GetValidatorByAddress.
  run. rewrite Hfetch. run. rewrite Hretired, Hjail. run.
  eexists _, _. split; [reflexivity |].
  split; [find_written |]. split; [find_written |]. split; reflexivity.
Qed.

(** X16. The balance test of [periodicUpdates] does not keep Activate away
    from an account below the threshold: when the registration check sees a
    record for the address and the fetch of the lifecycle check that follows
    fails, the iteration enters Activate, and it does not ask the faucet. *)
Theorem periodicUpdates_tick_activates_unfunded address w n1 balance n2 d n3 e :
  ans_getAccountByAddress client address (node w) = (n1, Ok balance) ->
  (balance < 10000000000)%Z ->
  ans_getValidatorByAddress client address n1 = (n2, Ok (Some d)) ->
  Address d = address ->
  ans_getValidatorByAddress client address n2 = (n3, Err e) ->
  exists n m evs,
    periodicUpdates_tick client address w = Returned false (after w n m evs) /\
    entered Activate evs = 1 /\
    invoked Fund evs = false.
Proof.
  intros Hbalance Hlow Hactive Haddress Hfetch. open_world w.
  unfold periodicUpdates_tick, checkSufficientBalance, checkActive,
    rpc.GetAccountBalanceByAddress, rpc.GetValidatorByAddress.
  run. rewrite Hbalance. run.
  rewrite Float64_facts.balance_threshold.
  destruct (Z.leb_spec 10000000000 balance); [lia |].
  rewrite Hactive. run. rewrite Haddress, String.eqb_refl. run. cbn [orb].
  evaluate. rewrite Hfetch. run. summarise.
  eexists _, _, _. split; [reflexivity |].
  split; [count_entries |].
  rewrite ?invoked_cons, ?invoked_app.
  match goal with H : forall p, invoked p _ = false |- _ => by rewrite H end.
Qed.

End Versions.



Section MoreStartup.
Context {N : Type} (client : Client N).
Implicit Types (w : World N) (address : string).
Import prometheus.

(** X17. When consensus is established but the node does not tell its
    address, [main] returns after five requests: no gauge carrying an
    address label is written and no procedure is entered. *)
Theorem main_stops_without_address ticks w n2 e :
  forallb established (consensus_answers client 3 (node w)) = true ->
  ans_getAddress client
    (ans_getEpochNumber client (after_checks client 3 (node w))).1 =
    (n2, Err e) ->
  exists m evs,
    main_startup client ticks w = Returned NoAddress (after w n2 m evs) /\
    (forall g a, a <> ""%string -> m !! (g, a) = metrics w !! (g, a)) /\
    requests evs =
      [isConsensusEstablished; isConsensusEstablished; isConsensusEstablished;
       getEpochNumber; getAddress] /\
    forall p, invoked p evs = false.
Proof.
  open_world w.
  unfold main_startup, checkConsensus, updateEpochNumberGauge.
  change (seqZ 1 maxAttempts) with [1; 2; 3]%Z.
  cbn [checkConsensus_loop consensus_answers after_checks].
  change (1 <? maxAttempts)%Z with true.
  change (2 <? maxAttempts)%Z with true.
  change (3 <? maxAttempts)%Z with false.
  unfold rpc.IsConsensusEstablished, rpc.GetEpochNumber, rpc.GetAddress.
  run.
  destruct (ans_isConsensusEstablished client n0) as [n1' [[|] | e1]];
    cbn [fst forallb established andb]; [| discriminate ..].
  destruct (ans_isConsensusEstablished client n1') as [n2' [[|] | e2]];
    cbn [fst forallb established andb]; [| discriminate ..].
  destruct (ans_isConsensusEstablished client n2') as [n3' [[|] | e3]];
    cbn [fst forallb established andb]; [| discriminate ..].
  intros _. change (0 + 1 + 1 + 1 =? maxAttempts)%Z with true. run.
  destruct (ans_getEpochNumber client n3') as [n4 [epochNumber | e']];
    cbn [fst]; intros Haddress; run; rewrite Haddress; run;
    (eexists _, _; split; [reflexivity |]);
    (split; [other_label |]); split; reflexivity.
Qed.

(** X18. The balance gauge shows the balance exactly whenever it is at
    most 2^53 luna in absolute value: the conversion to [float64] rounds
    nothing away. *)
Theorem balance_gauge_exact address w n1 balance :
  ans_getAccountByAddress client address (node w) = (n1, Ok balance) ->
  (Z.abs balance <= 2 ^ 53)%Z ->
  exists b v m evs,
    checkSufficientBalance client address w = Returned (b, v) (after w n1 m evs) /\
    m !! (ValidatorBalanceGauge, address) = Some (inject_Z balance).
Proof.
  intros Hbalance Hsmall. open_world w.
  unfold checkSufficientBalance, rpc.GetAccountBalanceByAddress.
  run. rewrite Hbalance. run.
  eexists _, _, _, _. split; [reflexivity |].
  rewrite (Float64_exact.of_Z_exact balance Hsmall). find_written.
Qed.

(** X21. When consensus is established, the node shows no record for its
    address and the balance reaches the threshold, [main] enters Activate
    exactly once before its ticker loop, without asking the faucet, and
    goes on to the loop whatever the activation gave. *)
Theorem main_activates_when_funded ticks w n2 validatorAddress n3 e n4 balance :
  forallb established (consensus_answers client 3 (node w)) = true ->
  ans_getAddress client
    (ans_getEpochNumber client (after_checks client 3 (node w))).1 =
    (n2, Ok validatorAddress) ->
  never_registered client validatorAddress ->
  ans_getValidatorByAddress client validatorAddress n2 = (n3, Err e) ->
  ans_getAccountByAddress client validatorAddress n3 = (n4, Ok balance) ->
  (10000000000 <= balance)%Z ->
  exists n m evs,
    main_startup client ticks w =
      Returned (MainLoop validatorAddress) (after w n m evs) /\
    entered Activate evs = 1 /\
    invoked Reactivate evs = false /\
    invoked Fund evs = false.
Proof.
  open_world w.
  unfold main_startup, checkConsensus, updateEpochNumberGauge,
    checkSufficientBalance.
  change (seqZ 1 maxAttempts) with [1; 2; 3]%Z.
  cbn [checkConsensus_loop consensus_answers after_checks].
  change (1 <? maxAttempts)%Z with true.
  change (2 <? maxAttempts)%Z with true.
  change (3 <? maxAttempts)%Z with false.
  unfold rpc.IsConsensusEstablished, rpc.GetEpochNumber, rpc.GetAddress,
    rpc.GetAccountBalanceByAddress.
  unfold rpc.GetValidatorByAddress at 1.
  run.
  destruct (ans_isConsensusEstablished client n0) as [n1' [[|] | e1]];
    cbn [fst forallb established andb]; [| discriminate ..].
  destruct (ans_isConsensusEstablished client n1') as [n2' [[|] | e2]];
    cbn [fst forallb established andb]; [| discriminate ..].
  destruct (ans_isConsensusEstablished client n2') as [n3' [[|] | e3]];
    cbn [fst forallb established andb]; [| discriminate ..].
  intros _. change (0 + 1 + 1 + 1 =? maxAttempts)%Z with true. run.
  destruct (ans_getEpochNumber client n3') as [n5 [epochNumber | e']];
    cbn [fst]; intros Haddress Hreg Hfetch Hbalance Hfunded; run;
    rewrite Haddress; run; rewrite Hfetch; run; rewrite Hbalance; run;
    rewrite Float64_facts.balance_threshold;
    (destruct (Z.leb_spec 10000000000 balance); [| lia]); run;
    evaluate; pose proof (Hreg n4) as Hr;
    (destruct (ans_getValidatorByAddress client validatorAddress n4)
       as [n6 [r | e'']]; cbn [snd fetch_failed] in Hr; [discriminate |]);
    run; summarise;
    (eexists _, _, _; split; [reflexivity |]);
    (split; [count_entries |]);
    split; repeat first [ rewrite invoked_cons | rewrite invoked_app ];
    repeat match goal with
           | H : forall p, invoked p _ = false |- _ => rewrite !H; clear H
           end;
    reflexivity.
Qed.

End MoreStartup.

(** An outcome with a value is the return of that value in its final world. *)
Lemma returned_final {N A} (o : Outcome N A) (w : World N) (a : A) :
  value o = Some a -> o = Returned a (final o w).
Proof. destruct o; [intros [= ->]; reflexivity | discriminate]. Qed.

(** ** Runs on the scripted nodes *)
Lemma null_record_panics_witness :
  ans_getValidatorByAddress null_node addr0 (node (world0 key_files)) =
    (1, Ok None) /\
  checkAndHandleValidatorStatus null_node addr0 (world0 key_files) = Panicked /\
  checkActive null_node addr0 (world0 key_files) = Panicked.
Proof.
  split; [reflexivity |].
  apply (null_record_panics null_node addr0 (world0 key_files) 1). reflexivity.
Defined.

Lemma other_addresses_untouched_witness :
  let w := world0 key_files in
  let w' := final (checkAndHandleValidatorStatus retired_node addr0 w) w in
  checkAndHandleValidatorStatus retired_node addr0 w = Returned false w' /\
  metrics w' !! (prometheus.ValidatorRetiredGauge, "NQ99"%string) =
  metrics w !! (prometheus.ValidatorRetiredGauge, "NQ99"%string).
Proof.
  intros w w'.
  assert (H : checkAndHandleValidatorStatus retired_node addr0 w = Returned false w')
    by (apply returned_final; vm_compute; reflexivity).
  split; [exact H |].
  apply (other_addresses_untouched retired_node addr0 w false w' H).
  discriminate.
Defined.

Lemma true_result_registry_witness :
  let w := world0 key_files in
  let w' := final (checkAndHandleValidatorStatus active_node addr0 w) w in
  checkAndHandleValidatorStatus active_node addr0 w = Returned true w' /\
  metrics w' !! (prometheus.ValidatorActivatedGauge, addr0) = Some 1%Q /\
  metrics w' !! (prometheus.ValidatorRetiredGauge, addr0) = Some 0%Q /\
  metrics w' !! (prometheus.ValidatorJailedGauge, addr0) = Some 0%Q /\
  metrics w' !! (prometheus.ValidatorJailedFromGauge, addr0) = Some 0%Q /\
  exists evs, trace w' = trace w ++ evs /\
              invoked Activate evs = false /\ invoked Reactivate evs = false.
Proof.
  intros w w'.
  assert (H : checkAndHandleValidatorStatus active_node addr0 w = Returned true w')
    by (apply returned_final; vm_compute; reflexivity).
  split; [exact H |].
  exact (true_result_registry active_node addr0 w w' H).
Defined.

Lemma jail_window_writes_witness :
  ans_getValidatorByAddress jailed_node addr0 (node (world0 key_files)) =
    (1, Ok (Some (record0 false (Some 100%Z)))) /\
  ans_getBlockNumber jailed_node 1 = (2, Ok 5000%Z) /\
  exists m evs,
    checkAndHandleValidatorStatus jailed_node addr0 (world0 key_files) =
      Returned true
        (after (world0 key_files) 2 m
           (evs ++ EvRpc getBlockNumber ::
              (if (5000 - 100 <? 8000)%Z then
                 [EvSet prometheus.ValidatorJailedGauge addr0 1%Q;
                  EvSet prometheus.ValidatorJailedFromGauge addr0 (Float64.of_Z 100)]
               else [EvSet prometheus.ValidatorJailedGauge addr0 0%Q]) ++
              [EvSet prometheus.ValidatorJailedGauge addr0 0%Q;
               EvSet prometheus.ValidatorJailedFromGauge addr0 0%Q])).
Proof.
  split; [reflexivity |]. split; [reflexivity |].
  apply (jail_window_writes jailed_node addr0 (world0 key_files) 1
           (record0 false (Some 100%Z)) 100%Z 2 5000%Z);
    first [ reflexivity | lia ].
Defined.

Lemma periodicUpdates_keeps_waiting_witness :
  exists n m evs,
    periodicUpdates unregistered_node 3 addr0 (world0 no_files) =
      Returned false (after (world0 no_files) n m evs) /\
    invoked Activate evs = false /\
    invoked Reactivate evs = false /\
    entered Fund evs =
      if String.eqb (network (world0 no_files)) "testnet" then 3 else 0.
Proof.
  apply (periodicUpdates_keeps_waiting unregistered_node addr0 3 (world0 no_files)).
  - intros n. reflexivity.
  - intros n. vm_compute. reflexivity.
Defined.

Lemma periodicUpdates_returns_in_good_standing_witness :
  let w := world0 key_files in
  let w' := final (periodicUpdates active_node 2 addr0 w) w in
  periodicUpdates active_node 2 addr0 w = Returned true w' /\
  metrics w' !! (prometheus.ValidatorActivatedGauge, addr0) = Some 1%Q /\
  metrics w' !! (prometheus.ValidatorRetiredGauge, addr0) = Some 0%Q /\
  metrics w' !! (prometheus.ValidatorJailedGauge, addr0) = Some 0%Q /\
  metrics w' !! (prometheus.ValidatorJailedFromGauge, addr0) = Some 0%Q.
Proof.
  intros w w'.
  assert (H : periodicUpdates active_node 2 addr0 w = Returned true w')
    by (apply returned_final; vm_compute; reflexivity).
  split; [exact H |].
  exact (periodicUpdates_returns_in_good_standing active_node addr0 2 w w' H).
Defined.

Lemma main_stops_without_consensus_witness :
  forallb established
          (consensus_answers unregistered_node 3 (node (world0 key_files))) = false /\
  exists n evs,
    main_startup unregistered_node 5 (world0 key_files) =
      Returned NoConsensus
               (after (world0 key_files) n (metrics (world0 key_files)) evs) /\
    requests evs =
      repeat isConsensusEstablished
             (checks_needed
                (consensus_answers unregistered_node 3 (node (world0 key_files)))) /\
    published evs = [] /\
    forall p, invoked p evs = false.
Proof.
  split; [reflexivity |].
  apply (main_stops_without_consensus unregistered_node 5 (world0 key_files)).
  reflexivity.
Defined.

Lemma main_skips_checks_when_registered_witness :
  forallb established
          (consensus_answers active_node 3 (node (world0 key_files))) = true /\
  ans_getAddress active_node
    (ans_getEpochNumber active_node
       (after_checks active_node 3 (node (world0 key_files)))).1 = (5, Ok addr0) /\
  ans_getValidatorByAddress active_node addr0 5 =
    (6, Ok (Some (record0 false None))) /\
  exists m evs,
    main_startup active_node 5 (world0 key_files) =
      Returned (MainLoop addr0) (after (world0 key_files) 6 m evs) /\
    m !! (prometheus.ValidatorActivatedGauge, addr0) = Some 0%Q /\
    m !! (prometheus.ValidatorActivatedCounterGauge, addr0) = Some 0%Q /\
    requests evs =
      [isConsensusEstablished; isConsensusEstablished; isConsensusEstablished;
       getEpochNumber; getAddress; getValidatorByAddress addr0] /\
    forall p, invoked p evs = false.
Proof.
  do 3 (split; [reflexivity |]).
  apply (main_skips_checks_when_registered active_node 5 (world0 key_files) 5
           addr0 6 (Some (record0 false None))); reflexivity.
Defined.

Lemma main_loop_activates_every_tick_witness :
  exists n m evs,
    main_loop unregistered_node 4 addr0 (world0 key_files) =
      Returned tt (after (world0 key_files) n m evs) /\
    entered Activate evs = 4 /\
    invoked Reactivate evs = false /\
    invoked Fund evs = false.
Proof.
  apply (main_loop_activates_every_tick unregistered_node addr0 4 (world0 key_files)).
  intros n. reflexivity.
Defined.

Lemma earlier_version_reports_jail_witness :
  ans_getValidatorByAddress jailed_node addr0 (node (world0 key_files)) =
    (1, Ok (Some (record0 false (Some 100%Z)))) /\
  exists m evs,
    part_001.checkAndHandleValidatorStatus jailed_node addr0 (world0 key_files) =
      Returned false (after (world0 key_files) 1 m evs) /\
    m !! (prometheus.ValidatorJailedGauge, addr0) = Some 1%Q /\
    m !! (prometheus.ValidatorJailedFromGauge, addr0) = Some (Float64.of_Z 100) /\
    requests evs = [getValidatorByAddress addr0] /\
    forall p, invoked p evs = false.
Proof.
  split; [reflexivity |].
  apply (earlier_version_reports_jail jailed_node addr0 (world0 key_files) 1
           (record0 false (Some 100%Z)) 100%Z); reflexivity.
Defined.

Lemma periodicUpdates_tick_activates_unfunded_witness :
  ans_getAccountByAddress flapping_node addr0 (node (world0 key_files)) =
    (1, Ok 4000000000%Z) /\
  ans_getValidatorByAddress flapping_node addr0 1 =
    (2, Ok (Some (record0 false None))) /\
  ans_getValidatorByAddress flapping_node addr0 2 =
    (3, Err "RPC error: validator not found") /\
  exists n m evs,
    periodicUpdates_tick flapping_node addr0 (world0 key_files) =
      Returned false (after (world0 key_files) n m evs) /\
    entered Activate evs = 1 /\
    invoked Fund evs = false.
Proof.
  do 3 (split; [reflexivity |]).
  apply (periodicUpdates_tick_activates_unfunded flapping_node addr0
           (world0 key_files) 1 4000000000%Z 2 (record0 false None) 3
           "RPC error: validator not found");
    first [ reflexivity | lia ].
Defined.


Lemma main_stops_without_address_witness :
  forallb established
          (consensus_answers silent_node 3 (node (world0 key_files))) = true /\
  ans_getAddress silent_node
    (ans_getEpochNumber silent_node
       (after_checks silent_node 3 (node (world0 key_files)))).1 =
    (5, Err "connection refused") /\
  exists m evs,
    main_startup silent_node 5 (world0 key_files) =
      Returned NoAddress (after (world0 key_files) 5 m evs) /\
    (forall g a, a <> ""%string ->
                 m !! (g, a) = metrics (world0 key_files) !! (g, a)) /\
    requests evs =
      [isConsensusEstablished; isConsensusEstablished; isConsensusEstablished;
       getEpochNumber; getAddress] /\
    forall p, invoked p evs = false.
Proof.
  do 2 (split; [reflexivity |]).
  apply (main_stops_without_address silent_node 5 (world0 key_files) 5
           "connection refused"); reflexivity.
Defined.

Lemma balance_gauge_exact_witness :
  ans_getAccountByAddress unregistered_node addr0 (node (world0 no_files)) =
    (1, Ok 4000000000%Z) /\
  exists b v m evs,
    checkSufficientBalance unregistered_node addr0 (world0 no_files) =
      Returned (b, v) (after (world0 no_files) 1 m evs) /\
    m !! (prometheus.ValidatorBalanceGauge, addr0) = Some (inject_Z 4000000000).
Proof.
  split; [reflexivity |].
  apply (balance_gauge_exact unregistered_node addr0 (world0 no_files) 1
           4000000000%Z); [reflexivity | lia].
Defined.

Lemma keys_are_trimmed_witness :
  private_key_in key_files "/keys/signing_key.txt" = Ok "5a6b7c"%string /\
  leading_space "5a6b7c" = false /\ trailing_space "5a6b7c" = false.
Proof.
  assert (H : private_key_in key_files "/keys/signing_key.txt" = Ok "5a6b7c"%string)
    by (vm_compute; reflexivity).
  split; [exact H |].
  apply (keys_are_trimmed key_files "/keys/signing_key.txt" "5a6b7c").
  left. exact H.
Defined.

Lemma main_activates_when_funded_witness :
  forallb established
          (consensus_answers funded_node 3 (node (world0 key_files))) = true /\
  ans_getAddress funded_node
    (ans_getEpochNumber funded_node
       (after_checks funded_node 3 (node (world0 key_files)))).1 =
    (5, Ok addr0) /\
  ans_getValidatorByAddress funded_node addr0 5 =
    (6, Err "RPC error: validator not found") /\
  ans_getAccountByAddress funded_node addr0 6 = (7, Ok 10000000000%Z) /\
  exists n m evs,
    main_startup funded_node 5 (world0 key_files) =
      Returned (MainLoop addr0) (after (world0 key_files) n m evs) /\
    entered Activate evs = 1 /\
    invoked Reactivate evs = false /\
    invoked Fund evs = false.
Proof.
  do 4 (split; [reflexivity |]).
  apply (main_activates_when_funded funded_node 5 (world0 key_files) 5 addr0 6
           "RPC error: validator not found" 7 10000000000%Z);
    first [ reflexivity | lia | intros n; reflexivity ].
Defined.
